(** * gateway-xds-generator: the CLI boundary and the translation contract

  The repository is a one-shot command: [main.go] fetches a Gateway,
  waits for informer caches, hands six listers to the translator package,
  wraps the translator's resource mapping into a go-control-plane
  snapshot ([generateXDS]), checks the snapshot and writes it as JSON.

  [main.go] is embedded as a program in a small trace-and-exit monad over
  a record of the answers of the outside world.  The translator package
  ([gateway-xds-generator/pkg/translator]) is not part of the sources at
  hand; its operations are modelled from the design document, and every
  such definition says so. *)

From Stdlib Require Import Ascii.
From stdpp Require Import gmap strings list sorting pretty.

Local Open Scope Z_scope.

(** ** Kubernetes objects read by the translator *)

Module K8s.

(** Modelled from the spec: a reference to an object by namespace and
    name, as TLS certificate references and backend references carry it
    (sections 3 and 4.1). *)
Record ObjectRef := {
  ref_namespace : string;
  ref_name : string;
}.

(** Modelled from the spec: the optional TLS config of a listener, with
    its certificate references (section 3). *)
Record TLSConfig := {
  tls_certificateRefs : list ObjectRef;
}.

(** Modelled from the spec: a Listener spec: name, port, protocol,
    optional hostname, optional TLS config (section 3). *)
Record ListenerSpec := {
  l_name : string;
  l_port : Z;
  l_protocol : string;
  l_hostname : option string;
  l_tls : option TLSConfig;
}.

(** Modelled from the spec: a Gateway: name/namespace and its listener
    specs (section 3). *)
Record Gateway := {
  gw_namespace : string;
  gw_name : string;
  gw_listeners : list ListenerSpec;
}.

(** Modelled from the spec: a parent reference of an HTTPRoute: the
    Gateway and listener it attaches to (section 3). *)
Record ParentRef := {
  pr_namespace : string;
  pr_name : string;
  pr_listener : string;
}.

(** Modelled from the spec: the match predicates of a rule: path (exact,
    prefix, or a kind the translator does not implement), headers (presence
    or value), query parameters, method (sections 3 and 4.3). *)
Inductive PathMatch :=
| PathExact (value : string)
| PathPrefix (value : string)
| PathOther (kind value : string).

Record HeaderMatch := {
  hm_name : string;
  hm_value : option string;
}.

Record QueryParamMatch := {
  qm_name : string;
  qm_value : string;
}.

Record HTTPRouteMatch := {
  m_path : option PathMatch;
  m_headers : list HeaderMatch;
  m_queryParams : list QueryParamMatch;
  m_method : option string;
}.

(** Modelled from the spec: a backend port, by name or by number
    (section 4.4). *)
Inductive PortRef :=
| PortNumber (n : Z)
| PortName (s : string).

(** Modelled from the spec: a weighted backend reference; the weight may
    be omitted (sections 3 and 4.3). *)
Record BackendRef := {
  br_namespace : string;
  br_name : string;
  br_port : PortRef;
  br_weight : option N;
}.

(** Modelled from the spec: the optional filters of a rule: header
    modification, redirect, URL rewrite, or a kind the translator does not
    support (sections 3 and 4.3). *)
Inductive HTTPRouteFilter :=
| RequestHeaderModifier (set add : list (string * string)) (remove : list string)
| RequestRedirect (scheme hostname : option string) (statusCode : option Z)
| URLRewrite (hostname path : option string)
| FilterOther (kind : string).

(** Modelled from the spec: a rule and an HTTPRoute (section 3). *)
Record HTTPRouteRule := {
  rule_match : HTTPRouteMatch;
  rule_backendRefs : list BackendRef;
  rule_filters : list HTTPRouteFilter;
}.

Record HTTPRoute := {
  hr_namespace : string;
  hr_name : string;
  hr_parentRefs : list ParentRef;
  hr_hostnames : list string;
  hr_rules : list HTTPRouteRule;
}.

(** Modelled from the spec: a Service: name/namespace, cluster-internal
    address, named ports (section 3). *)
Record ServicePort := {
  sp_name : string;
  sp_port : Z;
}.

Record Service := {
  svc_namespace : string;
  svc_name : string;
  svc_clusterIP : string;
  svc_ports : list ServicePort;
}.

(** Modelled from the spec: a Secret: name/namespace, TLS certificate
    and private key, opaque to the translator (section 3). *)
Record Secret := {
  sec_namespace : string;
  sec_name : string;
  sec_tls_crt : string;
  sec_tls_key : string;
}.

(** Modelled from the spec: a ReferenceGrant: a record in the target
    namespace permitting references from (from-namespace, from-kind) to
    (to-kind, optional to-name) (section 3). *)
Record ReferenceGrant := {
  rg_namespace : string;
  rg_from_namespace : string;
  rg_from_kind : string;
  rg_to_kind : string;
  rg_to_name : option string;
}.

(** Modelled from the spec: the point-in-time index the translator
    reads (sections 5 and 6): keyed collections for the objects that are
    looked up by namespace and name, listings for the collections that are
    scanned. *)
Record Index := {
  idx_services : gmap (string * string) Service;
  idx_secrets : gmap (string * string) Secret;
  idx_httproutes : list HTTPRoute;
  idx_referencegrants : list ReferenceGrant;
}.

End K8s.

(** ** Envoy xDS resources produced by the translator *)

Module XDS.

(** Modelled from the spec: the derived entities of section 3.  A
    Listener has a name, a bind address and port, and filter chains; it
    carries the protocol of its listener spec, which invariant 4 of
    section 3 has copied to it with the port.  A filter chain is keyed by
    the server name when TLS is present and references one
    RouteConfiguration. *)
Record TLSContext := {
  tc_certificate : string;
  tc_private_key : string;
}.

Record FilterChain := {
  fc_server_name : option string;
  fc_tls : list TLSContext;
  fc_route_config_name : string;
}.

Record Listener := {
  lis_name : string;
  lis_address : string;
  lis_port : Z;
  lis_protocol : string;
  lis_filter_chains : list FilterChain;
}.

(** Modelled from the spec: a RouteConfiguration is an ordered list of
    VirtualHosts keyed by hostnames, each an ordered list of Routes; a Route
    pairs a match with a weighted-cluster action (section 3). *)
Inductive PathSpecifier :=
| Path (value : string)
| Prefix (value : string).

Inductive HeaderMatcher :=
| HeaderPresent (name : string)
| HeaderExact (name value : string).

Record RouteMatch := {
  rm_path : option PathSpecifier;
  rm_headers : list HeaderMatcher;
  rm_query_parameters : list (string * string);
}.

Record ClusterWeight := {
  cw_name : string;
  cw_weight : option N;
}.

Record WeightedCluster := {
  wc_clusters : list ClusterWeight;
  wc_total_weight : N;
}.

Inductive RouteFilter :=
| HeaderMutation (set add : list (string * string)) (remove : list string)
| Redirect (scheme hostname : option string) (statusCode : option Z)
| Rewrite (hostname path : option string).

Record Route := {
  rt_match : RouteMatch;
  rt_action : WeightedCluster;
  rt_filters : list RouteFilter;
}.

Record VirtualHost := {
  vh_domains : list string;
  vh_routes : list Route;
}.

Record RouteConfiguration := {
  rc_name : string;
  rc_virtual_hosts : list VirtualHost;
}.

(** Modelled from the spec: a Cluster has a name, a discovery mode and
    upstream endpoints; a ClusterLoadAssignment holds the endpoints of a
    Cluster (section 3). *)
Inductive DiscoveryType := STATIC | STRICT_DNS | LOGICAL_DNS | EDS.

Record LbEndpoint := {
  ep_address : string;
  ep_port : Z;
}.

Record Cluster := {
  cl_name : string;
  cl_type : DiscoveryType;
  cl_endpoints : list LbEndpoint;
}.

Record ClusterLoadAssignment := {
  cla_cluster_name : string;
  cla_endpoints : list LbEndpoint;
}.

(** [envoyproxytypes.Resource]: any of the four resource kinds. *)
Inductive Resource :=
| RListener (l : Listener)
| RRoute (rc : RouteConfiguration)
| RCluster (c : Cluster)
| REndpoint (cla : ClusterLoadAssignment).

(** [cache.GetResourceName]. *)
Definition GetResourceName (r : Resource) : string :=
  match r with
  | RListener l => lis_name l
  | RRoute rc => rc_name rc
  | RCluster c => cl_name c
  | REndpoint cla => cla_cluster_name cla
  end.

End XDS.

(** ** The translator package, modelled from the design document *)

Module Translator.
Import K8s XDS.

(** go-control-plane's type URLs ([resourcev3.ListenerType] and so on),
    the keys of the mapping handed to [generateXDS]. *)
Definition ListenerType : string := "type.googleapis.com/envoy.config.listener.v3.Listener".
Definition RouteType : string := "type.googleapis.com/envoy.config.route.v3.RouteConfiguration".
Definition ClusterType : string := "type.googleapis.com/envoy.config.cluster.v3.Cluster".
Definition EndpointType : string := "type.googleapis.com/envoy.config.endpoint.v3.ClusterLoadAssignment".

(** Modelled from the spec: the error taxonomy of the translator
    (section 7: not-found, unauthorized-reference, unsupported-construct);
    the translator package is absent from the sources. *)
Inductive TranslateError :=
| ErrNotFound (kind namespace name : string)
| ErrUnauthorized (fromNS fromKind toNS toKind toName : string)
| ErrUnsupported (construct : string).

(** Modelled from the spec: when one ReferenceGrant matches a reference
    (section 4.1): its declared source namespace and kind equal
    [fromNS]/[fromKind], its declared target kind equals [toKind], and it
    names no target or names [toName]. *)
Definition grant_matches (fromNS fromKind toKind toName : string)
    (g : ReferenceGrant) : bool :=
  bool_decide (rg_from_namespace g = fromNS)
  && bool_decide (rg_from_kind g = fromKind)
  && bool_decide (rg_to_kind g = toKind)
  && match rg_to_name g with
     | None => true
     | Some n => bool_decide (n = toName)
     end.

(** Modelled from the spec: the Reference Resolver's [Authorize]
    (section 4.1), absent from the sources.  Same-namespace references
    are authorized without consulting grants; otherwise the grants cached
    in the target namespace [toNS] are scanned for a match. *)
Definition Authorize (idx : Index)
    (fromNS fromKind toNS toKind toName : string) : bool :=
  if decide (fromNS = toNS) then true
  else existsb (grant_matches fromNS fromKind toKind toName)
         (filter (λ g, rg_namespace g = toNS) (idx_referencegrants idx)).

(** *** The builder monad: a memo table of Clusters and an error *)

Definition Build (A : Type) : Type :=
  gmap string Cluster → TranslateError + (A * gmap string Cluster).

Definition ret {A} (a : A) : Build A := λ memo, inr (a, memo).

Definition bind {A B} (m : Build A) (k : A → Build B) : Build B :=
  λ memo,
    match m memo with
    | inl e => inl e
    | inr (a, memo') => k a memo'
    end.

Definition lift {A} (r : TranslateError + A) : Build A :=
  λ memo,
    match r with
    | inl e => inl e
    | inr a => inr (a, memo)
    end.

Fixpoint traverse {A B} (f : A → Build B) (l : list A) : Build (list B) :=
  match l with
  | [] => ret []
  | x :: l => bind (f x) (λ y, bind (traverse f l) (λ ys, ret (y :: ys)))
  end.

(** The same traversal for builders that keep no state. *)
Fixpoint traverse_pure {A B} (f : A → TranslateError + B) (l : list A)
    : TranslateError + list B :=
  match l with
  | [] => inr []
  | x :: l =>
      match f x with
      | inl e => inl e
      | inr y =>
          match traverse_pure f l with
          | inl e => inl e
          | inr ys => inr (y :: ys)
          end
      end
  end.

(** *** Cluster Builder (section 4.4) *)

(** Modelled from the spec: the deterministic Cluster name
    [namespace/name/port] (sections 3, 8 and 9). *)
Definition cluster_name (ns name : string) (port : Z) : string :=
  ns +:+ "/" +:+ name +:+ "/" +:+ pretty port.

(** Modelled from the spec: a backend port is given by name or by
    number and must exist on the Service (section 4.4). *)
Definition resolve_port (svc : Service) (p : PortRef) : option Z :=
  match p with
  | PortNumber n =>
      sp_port <$> List.find (λ sp, bool_decide (sp_port sp = n)) (svc_ports svc)
  | PortName s =>
      sp_port <$> List.find (λ sp, bool_decide (sp_name sp = s)) (svc_ports svc)
  end.

(** Modelled from the spec: the Cluster Builder (section 4.4).  It
    resolves the Service, validates the port, and returns the Cluster
    memoized under the deterministic name, building it (one logical
    endpoint at the Service's cluster-internal address, address-based
    discovery) only when the table has none. *)
Definition BuildCluster (idx : Index) (ref : BackendRef) : Build Cluster :=
  λ memo,
    match idx_services idx !! (br_namespace ref, br_name ref) with
    | None => inl (ErrNotFound "Service" (br_namespace ref) (br_name ref))
    | Some svc =>
        match resolve_port svc (br_port ref) with
        | None => inl (ErrNotFound "ServicePort" (br_namespace ref) (br_name ref))
        | Some port =>
            let name := cluster_name (br_namespace ref) (br_name ref) port in
            match memo !! name with
            | Some c => inr (c, memo)
            | None =>
                let c := {| cl_name := name;
                            cl_type := STRICT_DNS;
                            cl_endpoints :=
                              [ {| ep_address := svc_clusterIP svc;
                                   ep_port := port |} ] |} in
                inr (c, <[name := c]> memo)
            end
        end
    end.

(** Modelled from the spec: the endpoint assignment of a Cluster
    (sections 3 and 4.4). *)
Definition load_assignment (c : Cluster) : ClusterLoadAssignment :=
  {| cla_cluster_name := cl_name c; cla_endpoints := cl_endpoints c |}.

(** *** Route Builder (section 4.3) *)

(** Modelled from the spec: translation of a match predicate
    (exact or prefix path, header presence or value, query parameter,
    method); any other path match kind is an unsupported construct. *)
Definition translate_match (m : HTTPRouteMatch) : TranslateError + RouteMatch :=
  let headers :=
    ((λ h, match hm_value h with
           | None => HeaderPresent (hm_name h)
           | Some v => HeaderExact (hm_name h) v
           end) <$> m_headers m)
    ++ match m_method m with
       | None => []
       | Some meth => [HeaderExact ":method" meth]
       end in
  let queries := (λ q, (qm_name q, qm_value q)) <$> m_queryParams m in
  match m_path m with
  | None =>
      inr {| rm_path := None; rm_headers := headers;
             rm_query_parameters := queries |}
  | Some (PathExact v) =>
      inr {| rm_path := Some (Path v); rm_headers := headers;
             rm_query_parameters := queries |}
  | Some (PathPrefix v) =>
      inr {| rm_path := Some (Prefix v); rm_headers := headers;
             rm_query_parameters := queries |}
  | Some (PathOther kind _) => inl (ErrUnsupported kind)
  end.

(** Modelled from the spec: filters become route-level fields, an
    unsupported filter kind is an error (section 4.3). *)
Definition translate_filter (f : HTTPRouteFilter) : TranslateError + RouteFilter :=
  match f with
  | RequestHeaderModifier set add remove => inr (HeaderMutation set add remove)
  | RequestRedirect scheme host code => inr (Redirect scheme host code)
  | URLRewrite host path => inr (Rewrite host path)
  | FilterOther kind => inl (ErrUnsupported kind)
  end.

(** Modelled from the spec: the weights of a rule's backends, carried
    through verbatim; when every weight is omitted each backend gets
    weight 1 (section 4.3). *)
Definition action_weights (refs : list BackendRef) : list (option N) :=
  if forallb (λ r, bool_decide (br_weight r = None)) refs
  then (λ _, Some 1%N) <$> refs
  else br_weight <$> refs.

(** Modelled from the spec: the total of a weighted-cluster action, the
    sum of its weights (section 8). *)
Definition sum_weights (ws : list (option N)) : N :=
  foldr (λ w acc, (default 0 w + acc)%N) 0%N ws.

(** Modelled from the spec: a backend reference is resolved to its
    Cluster only when [Authorize] admits the reference from the route's
    namespace (sections 4.1 and 4.3). *)
Definition backend_cluster (idx : Index) (route_ns : string)
    (ref : BackendRef) : Build Cluster :=
  if Authorize idx route_ns "HTTPRoute" (br_namespace ref) "Service" (br_name ref)
  then BuildCluster idx ref
  else lift (inl (ErrUnauthorized route_ns "HTTPRoute"
                    (br_namespace ref) "Service" (br_name ref))).

(** Modelled from the spec: one rule becomes one Route, a match and a
    weighted-cluster action, together with the Clusters it requested
    (section 4.3). *)
Definition translate_rule (idx : Index) (route_ns : string)
    (rule : HTTPRouteRule) : Build (Route * list Cluster) :=
  bind (lift (translate_match (rule_match rule))) (λ m,
  bind (traverse (backend_cluster idx route_ns) (rule_backendRefs rule)) (λ cs,
  bind (lift (traverse_pure translate_filter (rule_filters rule))) (λ fs,
  let ws := action_weights (rule_backendRefs rule) in
  ret ({| rt_match := m;
          rt_action :=
            {| wc_clusters :=
                 zip_with (λ c w, {| cw_name := cl_name c; cw_weight := w |}) cs ws;
               wc_total_weight := sum_weights ws |};
          rt_filters := fs |}, cs)))).

(** Modelled from the spec: an empty or wildcard hostname (section 4.3). *)
Definition is_wildcard (h : string) : bool := bool_decide (h = "" ∨ h = "*").

(** Modelled from the spec: a route's hostnames intersect the
    listener's hostname on an exact match or when one of the two is
    empty or a wildcard (section 4.3). *)
Definition hostnames_intersect (lh : option string) (hs : list string) : bool :=
  match lh, hs with
  | None, _ => true
  | Some _, [] => true
  | Some h, _ =>
      is_wildcard h || existsb (λ h', is_wildcard h' || bool_decide (h' = h)) hs
  end.

(** Modelled from the spec: an HTTPRoute is attached to a listener when
    one of its parent references targets that Gateway and listener and
    the hostnames intersect (section 4.3). *)
Definition attaches (gw : Gateway) (l : ListenerSpec) (r : HTTPRoute) : bool :=
  existsb (λ p, bool_decide (pr_namespace p = gw_namespace gw)
                && bool_decide (pr_name p = gw_name gw)
                && bool_decide (pr_listener p = l_name l)) (hr_parentRefs r)
  && hostnames_intersect (l_hostname l) (hr_hostnames r).

(** Modelled from the spec: ascending order on (namespace, name)
    (section 4.3): by namespace, and by name within one namespace. *)
Definition key_le (k1 k2 : string * string) : Prop :=
  (k1.1 ≠ k2.1 ∧ String.le k1.1 k2.1) ∨ (k1.1 = k2.1 ∧ String.le k1.2 k2.2).

Definition route_key (r : HTTPRoute) : string * string :=
  (hr_namespace r, hr_name r).

Definition route_le (r1 r2 : HTTPRoute) : Prop :=
  key_le (route_key r1) (route_key r2).

#[global] Instance key_le_dec : RelDecision key_le.
Proof. intros k1 k2. unfold key_le. apply _. Defined.

#[global] Instance route_le_dec : RelDecision route_le.
Proof. intros r1 r2. unfold route_le. apply _. Defined.

(** Modelled from the spec: the routes attached to a listener, in
    ascending order of (namespace, name) (section 4.3). *)
Definition attached_routes (idx : Index) (gw : Gateway) (l : ListenerSpec)
    : list HTTPRoute :=
  merge_sort route_le (filter (λ r, attaches gw l r) (idx_httproutes idx)).

(** Modelled from the spec: two hostname lists name the same hostname
    set (section 4.3). *)
Definition same_hostname_set (hs1 hs2 : list string) : Prop :=
  list_to_set hs1 =@{gset string} list_to_set hs2.

#[global] Instance same_hostname_set_dec : RelDecision same_hostname_set.
Proof. intros hs1 hs2. unfold same_hostname_set. apply _. Defined.

(** Modelled from the spec: rules of routes with the same hostname set
    are merged into one VirtualHost; VirtualHosts stay in first-seen
    order (section 4.3). *)
Fixpoint add_routes (domains : list string) (rs : list Route)
    (vhs : list VirtualHost) : list VirtualHost :=
  match vhs with
  | [] => [ {| vh_domains := domains; vh_routes := rs |} ]
  | vh :: vhs =>
      if decide (same_hostname_set (vh_domains vh) domains)
      then {| vh_domains := vh_domains vh; vh_routes := vh_routes vh ++ rs |} :: vhs
      else vh :: add_routes domains rs vhs
  end.

(** Modelled from the spec: the rules of one HTTPRoute are translated in
    the order they are declared (section 4.3). *)
Definition translate_route (idx : Index) (r : HTTPRoute)
    : Build (list string * list (Route * list Cluster)) :=
  bind (traverse (translate_rule idx (hr_namespace r)) (hr_rules r)) (λ rs,
  ret (hr_hostnames r, rs)).

(** Modelled from the spec: the name shared by a listener's Listener
    resource and its RouteConfiguration, derived from
    (gateway namespace, gateway name, listener name) (section 4.2). *)
Definition listener_resource_name (gw : Gateway) (l : ListenerSpec) : string :=
  gw_namespace gw +:+ "/" +:+ gw_name gw +:+ "/" +:+ l_name l.

(** Modelled from the spec: the Route Builder's contract for one
    listener (section 4.3). *)
Definition BuildRoutes (idx : Index) (gw : Gateway) (l : ListenerSpec)
    : Build (RouteConfiguration * list Cluster) :=
  bind (traverse (translate_route idx) (attached_routes idx gw l)) (λ per_route,
  ret ({| rc_name := listener_resource_name gw l;
          rc_virtual_hosts :=
            foldl (λ vhs hr, add_routes hr.1 (fst <$> hr.2) vhs) [] per_route |},
       concat ((λ hr, concat (snd <$> hr.2)) <$> per_route))).

(** *** Listener Builder (section 4.2) *)

(** Modelled from the spec: a certificate reference is resolved to the
    Secret's certificate and key, subject to [Authorize]. *)
Definition resolve_certificate (idx : Index) (gw : Gateway) (ref : ObjectRef)
    : TranslateError + TLSContext :=
  if Authorize idx (gw_namespace gw) "Gateway" (ref_namespace ref) "Secret" (ref_name ref)
  then match idx_secrets idx !! (ref_namespace ref, ref_name ref) with
       | Some s => inr {| tc_certificate := sec_tls_crt s;
                          tc_private_key := sec_tls_key s |}
       | None => inl (ErrNotFound "Secret" (ref_namespace ref) (ref_name ref))
       end
  else inl (ErrUnauthorized (gw_namespace gw) "Gateway"
              (ref_namespace ref) "Secret" (ref_name ref)).

(** Modelled from the spec: the Listener Builder (section 4.2): one
    Listener per listener spec, bound to the declared port, with one
    filter chain (keyed by the hostname and carrying the TLS context when
    TLS is declared) that references the listener's RouteConfiguration. *)
Definition BuildListener (idx : Index) (gw : Gateway) (l : ListenerSpec)
    : TranslateError + Listener :=
  let name := listener_resource_name gw l in
  let listener chain :=
    {| lis_name := name;
       lis_address := "0.0.0.0";
       lis_port := l_port l;
       lis_protocol := l_protocol l;
       lis_filter_chains := [chain] |} in
  match l_tls l with
  | None =>
      inr (listener {| fc_server_name := None; fc_tls := [];
                       fc_route_config_name := name |})
  | Some tls =>
      match traverse_pure (resolve_certificate idx gw) (tls_certificateRefs tls) with
      | inl e => inl e
      | inr certs =>
          inr (listener {| fc_server_name := l_hostname l; fc_tls := certs;
                           fc_route_config_name := name |})
      end
  end.

(** *** Resource Aggregator (section 4.5) *)

(** Modelled from the spec: deduplication by name within one kind,
    keeping the first-built instance (section 4.5). *)
Fixpoint dedup_by {A} (name : A → string) (seen : gset string) (l : list A)
    : list A :=
  match l with
  | [] => []
  | x :: l =>
      if decide (name x ∈ seen) then dedup_by name seen l
      else x :: dedup_by name ({[name x]} ∪ seen) l
  end.

(** Modelled from the spec: for one listener the Aggregator asks the
    Listener Builder for its Listener and the Route Builder for its
    RouteConfiguration (section 2). *)
Definition translate_listener (idx : Index) (gw : Gateway) (l : ListenerSpec)
    : Build (Listener * (RouteConfiguration * list Cluster)) :=
  bind (lift (BuildListener idx gw l)) (λ lis,
  bind (BuildRoutes idx gw l) (λ rc,
  ret (lis, rc))).

(** The typed output graph before it is boxed into the mapping. *)
Record Graph := {
  g_listeners : list Listener;
  g_routes : list RouteConfiguration;
  g_clusters : list Cluster;
  g_endpoints : list ClusterLoadAssignment;
}.

(** Modelled from the spec: the Resource Aggregator (section 4.5)
    drives the builders over the Gateway's listeners, starting from an
    empty memo table, and deduplicates what they produced. *)
Definition aggregate (idx : Index) (gw : Gateway) : TranslateError + Graph :=
  match traverse (translate_listener idx gw) (gw_listeners gw) ∅ with
  | inl e => inl e
  | inr (built, _) =>
      let cs := dedup_by cl_name ∅ (concat ((λ b, b.2.2) <$> built)) in
      inr {| g_listeners := dedup_by lis_name ∅ (fst <$> built);
             g_routes := dedup_by rc_name ∅ ((λ b, b.2.1) <$> built);
             g_clusters := cs;
             g_endpoints := load_assignment <$> cs |}
  end.

(** Modelled from the spec: the mapping from resource kind to the
    ordered resources of that kind (sections 4.5 and 6), keyed as
    [generateXDS] expects it. *)
Definition to_resources (g : Graph) : gmap string (list Resource) :=
  {[ ListenerType := RListener <$> g_listeners g;
     RouteType := RRoute <$> g_routes g;
     ClusterType := RCluster <$> g_clusters g;
     EndpointType := REndpoint <$> g_endpoints g ]}.

(** Modelled from the spec: [TranslateGatewayToXDS], the translator's
    entry point called by [main]; the result is the mapping from resource
    kind (type URL) to the ordered resources of that kind (sections 4.5
    and 6), or the error that aborted the translation. *)
Definition TranslateGatewayToXDS (idx : Index) (gw : Gateway)
    : TranslateError + gmap string (list Resource) :=
  match aggregate idx gw with
  | inl e => inl e
  | inr g => inr (to_resources g)
  end.

(** The memo table files every Cluster under its own name. *)
Definition memo_named (memo : gmap string Cluster) : Prop :=
  ∀ n c, memo !! n = Some c → cl_name c = n.

(** [c] carries the deterministic name of backend [b]: the Service of [b]
    is in the index, the port of [b] exists on it, and [c] is named from
    the backend's namespace, name and resolved port. *)
Definition cluster_of_backend (idx : Index) (b : BackendRef) (c : Cluster) : Prop :=
  ∃ svc port,
    idx_services idx !! (br_namespace b, br_name b) = Some svc
    ∧ resolve_port svc (br_port b) = Some port
    ∧ cl_name c = cluster_name (br_namespace b) (br_name b) port.

(** Two listings of one point-in-time snapshot: the same keyed objects,
    and the same routes and grants in whatever order the cache lists them. *)
Definition same_snapshot (idx1 idx2 : Index) : Prop :=
  idx_services idx1 = idx_services idx2
  ∧ idx_secrets idx1 = idx_secrets idx2
  ∧ idx_httproutes idx1 ≡ₚ idx_httproutes idx2
  ∧ idx_referencegrants idx1 ≡ₚ idx_referencegrants idx2.

(** Kubernetes objects of one collection have distinct namespace/name. *)
Definition unique_route_keys (idx : Index) : Prop :=
  NoDup (route_key <$> idx_httproutes idx).

End Translator.

(** ** The command: [main.go] *)

Module Main.
Import K8s XDS.

(** Go's [error] values, by their message. *)
Definition error : Type := string.

(** The line feed that ends every format string of [main.go]. *)
Definition LF : string := String "010"%char EmptyString.

(** The six informers of the two shared informer factories whose listers
    [main] hands to the translator. *)
Inductive Informer :=
| Namespaces | Services | Secrets | Gateways | HTTPRoutes | ReferenceGrants.

#[global] Instance Informer_eq_dec : EqDecision Informer.
Proof. solve_decision. Defined.

(** Values built by library constructors are represented by what they
    were built from; whether a constructor fails is decided by the world. *)
Record User := { HomeDir : string }.

Inductive Config := BuildConfig (masterUrl kubeconfigPath : string).

Inductive KubeClient := KubeClientFor (c : Config).

Inductive GatewayClient := GatewayClientFor (c : Config).

(** The two shared informer factories, each over the client it was
    created with; a nil [kubeClient] is [None]. *)
Inductive InformerFactory :=
| CoreInformers (client : option KubeClient)
| GatewayInformers (client : GatewayClient).

(** [translator.New(kubeClient, gatewayClientset, listers...)]: the two
    clients (a nil [kubeClient] is [None]) and the informers whose listers
    were passed, in argument order. *)
Record TranslatorHandle := {
  t_kubeClient : option KubeClient;
  t_gatewayClient : GatewayClient;
  t_listers : list Informer;
}.

(** [cache.Snapshot], as [cache.NewSnapshot(version, resources)] builds it:
    the version string and the resource mapping it was given. *)
Record Snapshot := {
  snap_version : string;
  snap_resources : gmap string (list Resource);
}.

(** What the process does that can be seen from outside, and the calls it
    makes to the stages that can fail, in program order. *)
Inductive Event :=
| Println (line : string)
| Printf (format : string) (args : list string)
| GetGateway (c : GatewayClient) (namespace name : string)
| GoStart (f : InformerFactory)
| CacheSynced (controller : string) (informers : list Informer) (tick : nat)
| Translate (t : TranslatorHandle) (tick : nat) (gw : Gateway)
| NewSnapshot (version : string) (resources : gmap string (list Resource))
| Consistent (s : Snapshot)
| MarshalIndent (s : Snapshot)
| WriteFile (path data : string) (perm : Z)
| CloseStopCh.

(** The answers of everything outside [main.go]: the command line as
    [flag.Parse] reads it, the operating system, the cluster, the libraries
    and the translator. *)
Record World := {
  (** [flag.Parse()] on the default flag set, which is [flag.ExitOnError]:
      [None] when it returns; [Some code] when it ends the process itself,
      with status 2 on a command line it cannot parse and status 0 after
      [-h] or [-help] *)
  w_flag_Parse : option Z;
  (** the values behind the three flag pointers once [flag.Parse] has
      returned *)
  w_gatewayName : string;
  w_gatewayNs : string;
  w_outputFile : string;
  w_user_Current : error + User;
  w_filepath_Join : list string → string;
  w_BuildConfigFromFlags : string → string → option error;
  w_kubernetes_NewForConfig : Config → option error;
  w_gatewayclient_NewForConfig : Config → option error;
  w_Gateways_Get : GatewayClient → string → string → error + Gateway;
  (** the poll of [WaitForNamedCacheSync] by which the informer has been
      run by its factory's [Start] and the initial list call it then makes
      through the factory's client has completed, so that its [HasSynced]
      answers true from that poll on; [None] when [Start] never runs the
      informer (it went over the factory before the informer was
      registered) or the list never completes *)
  w_synced_at : Informer → option nat;
  (** the answer of the translator called at a poll, that is on what the
      caches of its listers hold at that poll *)
  w_TranslateGatewayToXDS :
    TranslatorHandle → nat → Gateway → error + gmap string (list Resource);
  w_time_Now : string;
  w_NewSnapshot : string → gmap string (list Resource) → option error;
  w_Consistent : Snapshot → option error;
  w_MarshalIndent : Snapshot → error + string;
  w_WriteFile : string → string → Z → option error;
}.

(** *** Processes: a trace of events and how the run ends *)

(** A process returns a value, ends in [os.Exit], dies of a panic in one
    of its goroutines (the Go runtime ends it with status 2), or never gets
    past a wait. *)
Inductive Result (A : Type) :=
| Val (a : A)
| Exit (code : Z)
| Panic
| Blocked.
Arguments Val {A} a.
Arguments Exit {A} code.
Arguments Panic {A}.
Arguments Blocked {A}.

Definition Proc (A : Type) : Type := list Event * Result A.

Definition ret {A} (a : A) : Proc A := ([], Val a).

Definition bind {A B} (m : Proc A) (k : A → Proc B) : Proc B :=
  match m with
  | (t, Val a) => let '(t', r) := k a in (t ++ t', r)
  | (t, Exit c) => (t, Exit c)
  | (t, Panic) => (t, Panic)
  | (t, Blocked) => (t, Blocked)
  end.

Definition emit (e : Event) : Proc unit := ([e], Val tt).

(** [os.Exit(code)]. *)
Definition os_Exit {A} (code : Z) : Proc A := ([], Exit code).

Definition trace {A} (p : Proc A) : list Event := p.1.

Definition result {A} (p : Proc A) : Result A := p.2.

#[global] Instance Proc_ret : MRet Proc := @ret.

#[global] Instance Proc_bind : MBind Proc := λ A B k m, bind m k.

(** [flag.Parse()] (main.go, line 34). *)
Definition flag_Parse (w : World) : Proc unit :=
  match w_flag_Parse w with
  | Some code => os_Exit code
  | None => ret tt
  end.

(** The idiom [if err != nil { fmt.Printf(format, args..., err); os.Exit(1) }]
    after a call that returns a value and an error. *)
Definition or_exit {A} (r : error + A) (format : string) (args : list string)
    : Proc A :=
  match r with
  | inl err => emit (Printf format (args ++ [err]));; os_Exit 1
  | inr a => ret a
  end.

(** The same idiom after a call that returns only an error. *)
Definition exit_on (r : option error) (format : string) (args : list string)
    : Proc unit :=
  match r with
  | Some err => emit (Printf format (args ++ [err]));; os_Exit 1
  | None => ret tt
  end.

Definition HasSynced (w : World) (i : Informer) (tick : nat) : bool :=
  match w_synced_at w i with
  | Some t => bool_decide (t ≤ tick)%nat
  | None => false
  end.

(** The first poll at which every listed informer has synced. *)
Fixpoint first_synced (w : World) (informers : list Informer) : option nat :=
  match informers with
  | [] => Some 0%nat
  | i :: rest =>
      match w_synced_at w i, first_synced w rest with
      | Some t, Some t' => Some (t `max` t')%nat
      | _, _ => None
      end
  end.

(** An informer of a factory, as
    [sharedInformers.Core().V1().Services().Informer()] names it; its
    [HasSynced] is what [main] puts in the list it waits for. *)
Definition SharedInformer : Type := InformerFactory * Informer.

(** An informer that is run lists through the client of its factory.  Over
    a nil [kubeClient] that call, [client.CoreV1()], dereferences the nil
    [*kubernetes.Clientset]: the informer's goroutine panics and the
    process dies. *)
Definition informer_panics (w : World) (i : SharedInformer) : bool :=
  match i.1 with
  | CoreInformers None =>
      match w_synced_at w i.2 with
      | Some _ => true
      | None => false
      end
  | _ => false
  end.

(** [k8scache.WaitForNamedCacheSync(name, stopCh, hasSynced...)]: polls
    until every listed [HasSynced] answers true.  The stop channel of
    [main] is closed only when [main] returns, so the call either returns
    (at the poll reached) or never does; when the informers sync is the
    world's to say.  An informer over a nil client never syncs: the
    process dies of its panic during the wait, or, when the informer is
    never run, waits forever.  [main] discards the boolean result. *)
Definition WaitForNamedCacheSync (w : World) (name : string)
    (hasSynced : list SharedInformer) : Proc nat :=
  if existsb (informer_panics w) hasSynced then ([], Panic)
  else
    match first_synced w (hasSynced.*2) with
    | Some tick => emit (CacheSynced name (hasSynced.*2) tick);; ret tick
    | None => ([], Blocked)
    end.

(** The file mode [0644] of [os.WriteFile]. *)
Definition perm_0644 : Z := 6 * 64 + 4 * 8 + 4.

(** [generateXDS] (main.go, lines 137-146). *)
Definition generateXDS (w : World) (resources : gmap string (list Resource))
    : Proc (Snapshot * option error) :=
  let version := w_time_Now w in
  emit (NewSnapshot version resources);;
  snapshot ←
    match w_NewSnapshot w version resources with
    | Some err =>
        emit (Printf ("Error generating snapshot: %v" +:+ LF) [err]);;
        os_Exit 1
    | None => ret {| snap_version := version; snap_resources := resources |}
    end;
  ret (snapshot, None).

(** [main] (main.go, lines 33-135). *)
Definition main (w : World) : Proc unit :=
  flag_Parse w;;
  let gatewayName := w_gatewayName w in
  let gatewayNs := w_gatewayNs w in
  let outputFile := w_outputFile w in
  if bool_decide (gatewayName = "" ∨ gatewayNs = "") then
    emit (Println "Error: --gateway and --namespace are required");;
    os_Exit 1
  else
  usr ← or_exit (w_user_Current w)
             ("Failed to get current user: %v" +:+ LF) [];
  let kubeconfig := w_filepath_Join w [HomeDir usr; ".kube"; "config"] in
  config ←
    or_exit (match w_BuildConfigFromFlags w "" kubeconfig with
             | Some err => inl err
             | None => inr (BuildConfig "" kubeconfig)
             end)
            ("Error building kubeconfig: %v" +:+ LF) [];
  kubeClient ←
    match w_kubernetes_NewForConfig w config with
    | Some err =>
        emit (Printf ("Error creating kube client: %v" +:+ LF) [err]);;
        ret None
    | None => ret (Some (KubeClientFor config))
    end;
  gatewayClientset ←
    or_exit (match w_gatewayclient_NewForConfig w config with
             | Some err => inl err
             | None => inr (GatewayClientFor config)
             end)
            ("Error creating Gateway API clientset: %v" +:+ LF) [];
  emit (GetGateway gatewayClientset gatewayNs gatewayName);;
  gw ← or_exit (w_Gateways_Get w gatewayClientset gatewayNs gatewayName)
            ("Error fetching Gateway %s/%s: %v" +:+ LF) [gatewayNs; gatewayName];
  emit (Printf ("Fetched Gateway: %s/%s" +:+ LF) [gw_namespace gw; gw_name gw]);;
  let sharedInformers := CoreInformers kubeClient in
  let sharedGwInformers := GatewayInformers gatewayClientset in
  emit (GoStart sharedGwInformers);;
  emit (GoStart sharedInformers);;
  (* the HasSynced of Namespaces, Secrets and ReferenceGrants are commented
     out of the list in main.go *)
  let hasSynced := [(sharedInformers, Services);
                    (sharedGwInformers, Gateways);
                    (sharedGwInformers, HTTPRoutes)] in
  tick ← WaitForNamedCacheSync w "test" hasSynced;
  let translator :=
    {| t_kubeClient := kubeClient;
       t_gatewayClient := gatewayClientset;
       t_listers := [Namespaces; Services; Secrets;
                     Gateways; HTTPRoutes; ReferenceGrants] |} in
  emit (Translate translator tick gw);;
  resources ← or_exit (w_TranslateGatewayToXDS w translator tick gw)
                   ("Error translating Gateway to XDS: %v" +:+ LF) [];
  '(snapshot, err) ← generateXDS w resources;
  exit_on err ("Error generating XDS: %v" +:+ LF) [];;
  emit (Consistent snapshot);;
  exit_on (w_Consistent w snapshot) ("Snapshot is inconsistent: %v" +:+ LF) [];;
  emit (MarshalIndent snapshot);;
  xdsJSON ← or_exit (w_MarshalIndent w snapshot)
                 ("Error marshaling XDS to JSON: %v" +:+ LF) [];
  emit (WriteFile outputFile xdsJSON perm_0644);;
  exit_on (w_WriteFile w outputFile xdsJSON perm_0644)
    ("Error writing to output file %s: %v" +:+ LF) [outputFile];;
  emit (Printf ("Successfully wrote XDS to %s" +:+ LF) [outputFile]);;
  emit CloseStopCh.

(** The error, if any, with which the world answers the call recorded by
    an event, for the calls whose failure aborts the run: the Gateway fetch,
    the translation, the snapshot construction, the consistency check and
    the JSON marshaling. *)
Definition stage_error (w : World) (e : Event) : option error :=
  match e with
  | GetGateway c ns name =>
      match w_Gateways_Get w c ns name with inl err => Some err | inr _ => None end
  | Translate t tick gw =>
      match w_TranslateGatewayToXDS w t tick gw with
      | inl err => Some err
      | inr _ => None
      end
  | NewSnapshot version resources => w_NewSnapshot w version resources
  | Consistent s => w_Consistent w s
  | MarshalIndent s =>
      match w_MarshalIndent w s with inl err => Some err | inr _ => None end
  | _ => None
  end.

End Main.

(** ** The command line and views of a run *)

Module CommandLine.
Import K8s XDS Main.

(** A flag as [flag.String(name, value, usage)] declares it. *)
Record FlagSpec := {
  flag_name : string;
  flag_default : string;
  flag_usage : string;
}.

(** The three flags of main.go (lines 27-31). *)
Definition gatewayName : FlagSpec :=
  {| flag_name := "gateway"; flag_default := "";
     flag_usage := "Name of the Gateway resource" |}.

Definition gatewayNs : FlagSpec :=
  {| flag_name := "namespace"; flag_default := "default";
     flag_usage := "Namespace of the Gateway resource" |}.

Definition outputFile : FlagSpec :=
  {| flag_name := "output"; flag_default := "envoy-xds.json";
     flag_usage := "Output file for the Envoy XDS configuration" |}.

(** The value behind a flag pointer once [flag.Parse()] has returned: what
    the command line set for the flag's name, else the declared default. *)
Definition flag_value (set : gmap string string) (f : FlagSpec) : string :=
  default (flag_default f) (set !! flag_name f).

(** The world in which [flag.Parse()] found the flags [set] on the command
    line, and returned. *)
Definition with_flags (set : gmap string string) (w : World) : World :=
  {| w_flag_Parse := None;
     w_gatewayName := flag_value set gatewayName;
     w_gatewayNs := flag_value set gatewayNs;
     w_outputFile := flag_value set outputFile;
     w_user_Current := w_user_Current w;
     w_filepath_Join := w_filepath_Join w;
     w_BuildConfigFromFlags := w_BuildConfigFromFlags w;
     w_kubernetes_NewForConfig := w_kubernetes_NewForConfig w;
     w_gatewayclient_NewForConfig := w_gatewayclient_NewForConfig w;
     w_Gateways_Get := w_Gateways_Get w;
     w_synced_at := w_synced_at w;
     w_TranslateGatewayToXDS := w_TranslateGatewayToXDS w;
     w_time_Now := w_time_Now w;
     w_NewSnapshot := w_NewSnapshot w;
     w_Consistent := w_Consistent w;
     w_MarshalIndent := w_MarshalIndent w;
     w_WriteFile := w_WriteFile w |}.

(** The events that report to standard output. *)
Definition is_report (e : Event) : bool :=
  match e with
  | Println _ | Printf _ _ => true
  | _ => false
  end.

(** The place of a call in the pipeline of [main]: fetch, translate,
    snapshot, check, marshal, write. *)
Definition stage_rank (e : Event) : option nat :=
  match e with
  | GetGateway _ _ _ => Some 0%nat
  | Translate _ _ _ => Some 1%nat
  | NewSnapshot _ _ => Some 2%nat
  | Consistent _ => Some 3%nat
  | MarshalIndent _ => Some 4%nat
  | WriteFile _ _ _ => Some 5%nat
  | _ => None
  end.

(** The configuration [main] builds for a user: an empty master URL and the
    kubeconfig under the user's home directory (main.go, lines 46-48). *)
Definition config_of (w : World) (usr : User) : Config :=
  BuildConfig "" (w_filepath_Join w [HomeDir usr; ".kube"; "config"]).

(** The translator [main] creates for a user (main.go, lines 54-57 and
    93-102): over the Kubernetes client, which is nil when its creation
    failed, over the Gateway API clientset, and over the listers of all six
    informers. *)
Definition translator_of (w : World) (usr : User) : TranslatorHandle :=
  {| t_kubeClient :=
       match w_kubernetes_NewForConfig w (config_of w usr) with
       | Some _ => None
       | None => Some (KubeClientFor (config_of w usr))
       end;
     t_gatewayClient := GatewayClientFor (config_of w usr);
     t_listers := [Namespaces; Services; Secrets;
                   Gateways; HTTPRoutes; ReferenceGrants] |}.

End CommandLine.

(** ** Concrete inputs used by the examples *)

Module Demo.
Import K8s XDS Translator Main.

Definition http_listener : ListenerSpec :=
  {| l_name := "http"; l_port := 80; l_protocol := "HTTP";
     l_hostname := None; l_tls := None |}.

Definition https_listener : ListenerSpec :=
  {| l_name := "https"; l_port := 443; l_protocol := "HTTPS";
     l_hostname := Some "example.com";
     l_tls := Some {| tls_certificateRefs :=
                        [ {| ref_namespace := "certs"; ref_name := "example-tls" |} ] |} |}.

(** Gateway [g1] in namespace [ns1] of the spec's worked example, with a
    second, TLS listener. *)
Definition g1 : Gateway :=
  {| gw_namespace := "ns1"; gw_name := "g1";
     gw_listeners := [http_listener; https_listener] |}.

Definition prefix_slash : HTTPRouteMatch :=
  {| m_path := Some (PathPrefix "/"); m_headers := [];
     m_queryParams := []; m_method := None |}.

Definition backend (ns name : string) (port : Z) (weight : option N) : BackendRef :=
  {| br_namespace := ns; br_name := name; br_port := PortNumber port;
     br_weight := weight |}.

Definition rule_of (refs : list BackendRef) : HTTPRouteRule :=
  {| rule_match := prefix_slash; rule_backendRefs := refs; rule_filters := [] |}.

Definition route (ns name listener : string) (rules : list HTTPRouteRule) : HTTPRoute :=
  {| hr_namespace := ns; hr_name := name;
     hr_parentRefs := [ {| pr_namespace := "ns1"; pr_name := "g1";
                           pr_listener := listener |} ];
     hr_hostnames := ["example.com"];
     hr_rules := rules |}.

(** [r1]: one rule, all traffic to [svc1:8080], weight omitted. *)
Definition r1 : HTTPRoute :=
  route "ns1" "r1" "http" [rule_of [backend "ns1" "svc1" 8080 None]].

(** [r2]: backends A:2 and B:1 on one rule, B in another namespace. *)
Definition r2 : HTTPRoute :=
  route "ns1" "r2" "http"
    [rule_of [backend "ns1" "svc1" 8080 (Some 2%N);
              backend "ns2" "svc2" 9090 (Some 1%N)]].

(** [r0]: sorts before [r1] and shares its backend. *)
Definition r0 : HTTPRoute :=
  route "ns0" "r0" "http" [rule_of [backend "ns1" "svc1" 8080 None]].

Definition service (ns name ip : string) (port : Z) : Service :=
  {| svc_namespace := ns; svc_name := name; svc_clusterIP := ip;
     svc_ports := [ {| sp_name := "web"; sp_port := port |} ] |}.

Definition grant_ns0_to_svc1 : ReferenceGrant :=
  {| rg_namespace := "ns1"; rg_from_namespace := "ns0";
     rg_from_kind := "HTTPRoute"; rg_to_kind := "Service";
     rg_to_name := Some "svc1" |}.

Definition grant_ns1_to_ns2 : ReferenceGrant :=
  {| rg_namespace := "ns2"; rg_from_namespace := "ns1";
     rg_from_kind := "HTTPRoute"; rg_to_kind := "Service";
     rg_to_name := None |}.

Definition grant_gateway_to_certs : ReferenceGrant :=
  {| rg_namespace := "certs"; rg_from_namespace := "ns1";
     rg_from_kind := "Gateway"; rg_to_kind := "Secret";
     rg_to_name := Some "example-tls" |}.

Definition index_with (routes : list HTTPRoute) (grants : list ReferenceGrant) : Index :=
  {| idx_services :=
       {[ ("ns1", "svc1") := service "ns1" "svc1" "10.0.0.1" 8080;
          ("ns2", "svc2") := service "ns2" "svc2" "10.0.0.2" 9090 ]};
     idx_secrets :=
       {[ ("certs", "example-tls") :=
            {| sec_namespace := "certs"; sec_name := "example-tls";
               sec_tls_crt := "CERT"; sec_tls_key := "KEY" |} ]};
     idx_httproutes := routes;
     idx_referencegrants := grants |}.

Definition idx : Index :=
  index_with [r2; r1; r0]
    [grant_ns0_to_svc1; grant_ns1_to_ns2; grant_gateway_to_certs].

(** The same objects, listed in another order. *)
Definition idx_relisted : Index :=
  index_with [r0; r1; r2]
    [grant_gateway_to_certs; grant_ns1_to_ns2; grant_ns0_to_svc1].

Definition error_message (e : TranslateError) : error :=
  match e with
  | ErrNotFound kind ns name => kind +:+ " " +:+ ns +:+ "/" +:+ name +:+ " not found"
  | ErrUnauthorized _ fromKind toNS toKind toName =>
      fromKind +:+ " may not reference " +:+ toKind +:+ " " +:+ toNS +:+ "/" +:+ toName
  | ErrUnsupported construct => "unsupported " +:+ construct
  end.


(** The graph the modelled translator builds for [g1] over [idx], and the
    mapping it returns. *)
Definition translated_graph : Graph :=
  match aggregate idx g1 with
  | inr g => g
  | inl _ => {| g_listeners := []; g_routes := [];
                g_clusters := []; g_endpoints := [] |}
  end.

Definition translated : gmap string (list Resource) :=
  to_resources translated_graph.




(** The stages of [main] at which the world can answer with an error. *)
Inductive Stage :=
| AtFlags | AtUser | AtKubeconfig | AtKubeClient | AtGatewayClient | AtGatewayFetch
| AtTranslate | AtNewSnapshot | AtConsistent | AtMarshal | AtWriteFile.

#[global] Instance Stage_eq_dec : EqDecision Stage.
Proof. solve_decision. Defined.

Definition fails_at (failing : list Stage) (s : Stage) : option error :=
  if decide (s ∈ failing) then Some "boom" else None.

Definition answer_at {A} (failing : list Stage) (s : Stage) (a : A) : error + A :=
  match fails_at failing s with
  | Some e => inl e
  | None => inr a
  end.

Fixpoint join_path (parts : list string) : string :=
  match parts with
  | [] => ""
  | [p] => p
  | p :: rest => p +:+ "/" +:+ join_path rest
  end.

(** A world around the demo cluster: every call succeeds except at the
    listed stages; the translator is the modelled one over [idx]. *)
Definition world (failing : list Stage) (synced_at : Informer → option nat) : World :=
  {| w_flag_Parse := if decide (AtFlags ∈ failing) then Some 2 else None;
     w_gatewayName := "g1";
     w_gatewayNs := "ns1";
     w_outputFile := "envoy-xds.json";
     w_user_Current := answer_at failing AtUser {| HomeDir := "/home/dev" |};
     w_filepath_Join := join_path;
     w_BuildConfigFromFlags := λ _ _, fails_at failing AtKubeconfig;
     w_kubernetes_NewForConfig := λ _, fails_at failing AtKubeClient;
     w_gatewayclient_NewForConfig := λ _, fails_at failing AtGatewayClient;
     w_Gateways_Get := λ _ _ _, answer_at failing AtGatewayFetch g1;
     w_synced_at := synced_at;
     w_TranslateGatewayToXDS := λ _ _ gw,
       match fails_at failing AtTranslate, TranslateGatewayToXDS idx gw with
       | Some e, _ => inl e
       | None, inl e => inl (error_message e)
       | None, inr resources => inr resources
       end;
     w_time_Now := "2024-01-01T00:00:00.000000001Z";
     w_NewSnapshot := λ _ _, fails_at failing AtNewSnapshot;
     w_Consistent := λ _, fails_at failing AtConsistent;
     w_MarshalIndent := λ _, answer_at failing AtMarshal "{}";
     w_WriteFile := λ _ _ _, fails_at failing AtWriteFile |}.

(** The configuration [main] builds in these worlds. *)
Definition demo_config : Config := BuildConfig "" "/home/dev/.kube/config".

(** Every informer answers [HasSynced] at the first poll. *)
Definition all_synced : Informer → option nat := λ _, Some 0%nat.

(** Only the informers [main] waits for ever sync; the ones whose wait is
    commented out in [main.go] do not. *)
Definition only_waited_synced : Informer → option nat :=
  λ i, match i with
       | Services | Gateways | HTTPRoutes => Some 2%nat
       | Namespaces | Secrets | ReferenceGrants => None
       end.

End Demo.

(** * Properties of the command *)

Import K8s XDS Main.

(** Splits one answer of the world into its success and its failure. *)
Ltac split_world :=
  match goal with
  | |- context [match ?x with _ => _ end] =>
      lazymatch x with
      | context [match _ with _ => _ end] => fail
      | _ => destruct x eqn:?
      end
  end.

Ltac unfold_main :=
  unfold main, flag_Parse, generateXDS, WaitForNamedCacheSync, informer_panics,
    or_exit, exit_on;
  unfold mbind, Proc_bind, Main.bind, emit, os_Exit, Main.ret, trace, result.

(** Runs [main] symbolically, one goal per path through it. *)
Ltac run_main := unfold_main; simpl; repeat (split_world; simpl).

(** Case analysis on which event of a computed trace [H] speaks of. *)
Tactic Notation "in_trace" hyp(H) :=
  apply list_elem_of_In in H; simpl in H;
  repeat (destruct H as [H|H]); try done; simplify_eq.

(** Rewrites the answers recorded on the path into [H]. *)
Tactic Notation "with_answers" hyp(H) :=
  simpl in H;
  repeat match goal with
         | E : ?x = _ |- _ =>
             tryif constr_eq E H then fail else rewrite E in H
         end;
  simplify_eq.

(** An event is not in a computed trace. *)
Ltac not_in_trace :=
  let H := fresh in
  intros H; apply list_elem_of_In in H; simpl in H;
  repeat (destruct H as [H|H]);
  try discriminate H; try done;
  try (injection H as H _; cbv in H; discriminate H).

(** The write is the [j]-th event of a computed trace, after the
    translation and the check on the path. *)
Ltac written_at j :=
  exists j; eexists _, _, _, _; split;
    [apply list_elem_of_In; simpl; repeat (try (left; reflexivity); right)|];
  split; [eassumption|]; simpl; split; [reflexivity|];
  split; [apply list_elem_of_In; simpl; tauto|done].

Section MainProperties.

(** The informers in the list given to [WaitForNamedCacheSync] have synced
    at the poll it returns. *)
Lemma first_synced_HasSynced w informers tick i :
  first_synced w informers = Some tick →
  i ∈ informers → HasSynced w i tick = true.
Proof.
  revert tick. induction informers as [|j rest IH]; intros tick Hfirst Hin.
  - by apply elem_of_nil in Hin.
  - simpl in Hfirst.
    destruct (w_synced_at w j) as [t|] eqn:Hj; [|done].
    destruct (first_synced w rest) as [t'|] eqn:Hrest; [|done].
    simplify_eq. apply elem_of_cons in Hin as [->|Hin].
    + unfold HasSynced. rewrite Hj. apply bool_decide_eq_true. lia.
    + specialize (IH t' eq_refl Hin). unfold HasSynced in *.
      destruct (w_synced_at w i); [|done].
      apply bool_decide_eq_true in IH. apply bool_decide_eq_true. lia.
Qed.

(** When [main] calls the translator, the Services, Gateways and
    HTTPRoutes informers have synced. *)
Lemma waited_informers_synced_at_translation w t tick gw i :
  Translate t tick gw ∈ trace (main w) →
  i ∈ [Services; Gateways; HTTPRoutes] →
  HasSynced w i tick = true.
Proof.
  intros Hin Hi. revert Hin. run_main; intros Hin; in_trace Hin.
  all: apply (first_synced_HasSynced w [Services; Gateways; HTTPRoutes]);
    [simpl|done].
  all: repeat match goal with
              | H : w_synced_at _ _ = _ |- _ => rewrite H; clear H
              end.
  all: done.
Qed.

(** C10: whenever [generateXDS] returns, its error result is nil: a failed
    snapshot construction prints and exits inside [generateXDS], a
    successful one returns the snapshot with a nil error; so [main] never
    prints "Error generating XDS". *)
Theorem generateXDS_never_returns_error (w : World) :
  (∀ resources t snapshot err,
     generateXDS w resources = (t, Val (snapshot, err)) → err = None) ∧
  (∀ resources e,
     w_NewSnapshot w (w_time_Now w) resources = Some e →
     generateXDS w resources =
       ([NewSnapshot (w_time_Now w) resources;
         Printf ("Error generating snapshot: %v" +:+ LF) [e]], Exit 1)) ∧
  (∀ resources,
     w_NewSnapshot w (w_time_Now w) resources = None →
     generateXDS w resources =
       ([NewSnapshot (w_time_Now w) resources],
        Val ({| snap_version := w_time_Now w; snap_resources := resources |},
             None))) ∧
  (∀ args, Printf ("Error generating XDS: %v" +:+ LF) args ∉ trace (main w)).
Proof.
  repeat split.
  - intros resources t snapshot err. unfold generateXDS.
    unfold mbind, Proc_bind, bind, emit, os_Exit, ret.
    destruct (w_NewSnapshot w (w_time_Now w) resources); simpl; congruence.
  - intros resources e He. unfold generateXDS.
    unfold mbind, Proc_bind, bind, emit, os_Exit, ret. by rewrite He.
  - intros resources Hok. unfold generateXDS.
    unfold mbind, Proc_bind, bind, emit, os_Exit, ret. by rewrite Hok.
  - intros args. run_main; not_in_trace.
Qed.

(** C2: the output file is written only with the JSON of the snapshot of
    the translator's mapping, and only after the consistency check of that
    snapshot was called and passed; a snapshot that fails the check is
    reported and ends the run with status 1 and no write. *)
Theorem output_written_only_if_consistent (w : World) :
  (∀ path data perm,
     WriteFile path data perm ∈ trace (main w) →
     ∃ j t tick gw resources,
       Translate t tick gw ∈ trace (main w)
       ∧ w_TranslateGatewayToXDS w t tick gw = inr resources
       ∧ let s := {| snap_version := w_time_Now w;
                     snap_resources := resources |} in
         trace (main w) !! j = Some (WriteFile path data perm)
         ∧ Consistent s ∈ take j (trace (main w))
         ∧ w_Consistent w s = None
         ∧ w_MarshalIndent w s = inr data ∧ path = w_outputFile w) ∧
  (∀ s err,
     Consistent s ∈ trace (main w) → w_Consistent w s = Some err →
     result (main w) = Exit 1
     ∧ last (trace (main w))
       = Some (Printf ("Snapshot is inconsistent: %v" +:+ LF) [err])
     ∧ ∀ path data perm, WriteFile path data perm ∉ trace (main w)).
Proof.
  split.
  - intros path data perm. run_main; intros Hin; in_trace Hin.
    all: first [written_at 9%nat|written_at 10%nat].
  - intros s err. run_main; intros Hin Herr; in_trace Hin.
    all: try (with_answers Herr).
    all: repeat split; intros path data perm; not_in_trace.
Qed.

(** C3: when the Gateway fetch, the translation, the snapshot construction,
    the consistency check or the JSON marshaling answers with an error, the
    run ends with exit status 1, the last thing it did was print that
    error, and [os.WriteFile] was never called. *)
Theorem stage_error_aborts_without_output (w : World) (ev : Event) (err : error) :
  ev ∈ trace (main w) →
  stage_error w ev = Some err →
  result (main w) = Exit 1
  ∧ (∃ format args,
       last (trace (main w)) = Some (Printf format args)
       ∧ last args = Some err)
  ∧ ∀ path data perm, WriteFile path data perm ∉ trace (main w).
Proof.
  run_main; intros Hin Herr; in_trace Hin.
  all: try (with_answers Herr).
  all: split; [done|split; [by eexists _, _|]].
  all: intros path data perm; not_in_trace.
Qed.

End MainProperties.

Section KubeClient.

Lemma flags_given w :
  w_gatewayName w ≠ "" → w_gatewayNs w ≠ "" →
  bool_decide (w_gatewayName w = "" ∨ w_gatewayNs w = "") = false.
Proof. intros. apply bool_decide_eq_false. tauto. Qed.

(** C9, with the run ending in the cache wait: a failure to create the
    Kubernetes client is printed and the run does not exit there: it goes
    on with a nil client to create the Gateway API clientset, fetch the
    Gateway and start the informers of both factories, and that is the last
    thing it does.  It never calls the
    translator: in the wait for the caches the process dies of the panic of
    the Services informer over the nil client when that informer is run,
    and waits forever when it is not.  A command line that [flag.Parse]
    refuses, a missing flag and a failure of the user lookup, of the
    kubeconfig or of the Gateway API clientset each end the run at once,
    those found by [main.go] with exit status 1. *)
Theorem kube_client_failure_only_printed (w : World) :
  (∀ usr err,
     w_flag_Parse w = None →
     w_gatewayName w ≠ "" → w_gatewayNs w ≠ "" →
     w_user_Current w = inr usr →
     let kubeconfig := w_filepath_Join w [HomeDir usr; ".kube"; "config"] in
     let config := BuildConfig "" kubeconfig in
     w_BuildConfigFromFlags w "" kubeconfig = None →
     w_kubernetes_NewForConfig w config = Some err →
     head (trace (main w))
     = Some (Printf ("Error creating kube client: %v" +:+ LF) [err])
     ∧ (∀ e, w_gatewayclient_NewForConfig w config = Some e →
             main w
             = ([Printf ("Error creating kube client: %v" +:+ LF) [err];
                 Printf ("Error creating Gateway API clientset: %v" +:+ LF) [e]],
                Exit 1))
     ∧ (w_gatewayclient_NewForConfig w config = None →
        GetGateway (GatewayClientFor config) (w_gatewayNs w) (w_gatewayName w)
        ∈ trace (main w))
     ∧ (∀ gw,
          w_gatewayclient_NewForConfig w config = None →
          w_Gateways_Get w (GatewayClientFor config)
            (w_gatewayNs w) (w_gatewayName w) = inr gw →
          trace (main w)
          = [Printf ("Error creating kube client: %v" +:+ LF) [err];
             GetGateway (GatewayClientFor config) (w_gatewayNs w) (w_gatewayName w);
             Printf ("Fetched Gateway: %s/%s" +:+ LF) [gw_namespace gw; gw_name gw];
             GoStart (GatewayInformers (GatewayClientFor config));
             GoStart (CoreInformers None)]
          ∧ (result (main w) = Panic ↔ w_synced_at w Services ≠ None)
          ∧ (result (main w) = Blocked ↔ w_synced_at w Services = None))
     ∧ (∀ t tick gw, Translate t tick gw ∉ trace (main w)))
  ∧ (∀ code, w_flag_Parse w = Some code → main w = ([], Exit code))
  ∧ (w_flag_Parse w = None →
     w_gatewayName w = "" ∨ w_gatewayNs w = "" →
     main w = ([Println "Error: --gateway and --namespace are required"], Exit 1))
  ∧ (∀ e, w_flag_Parse w = None →
          w_gatewayName w ≠ "" → w_gatewayNs w ≠ "" →
          w_user_Current w = inl e →
          main w = ([Printf ("Failed to get current user: %v" +:+ LF) [e]], Exit 1))
  ∧ (∀ usr e, w_flag_Parse w = None →
          w_gatewayName w ≠ "" → w_gatewayNs w ≠ "" →
          w_user_Current w = inr usr →
          w_BuildConfigFromFlags w ""
            (w_filepath_Join w [HomeDir usr; ".kube"; "config"]) = Some e →
          main w = ([Printf ("Error building kubeconfig: %v" +:+ LF) [e]], Exit 1))
  ∧ (∀ usr e, w_flag_Parse w = None →
          w_gatewayName w ≠ "" → w_gatewayNs w ≠ "" →
          w_user_Current w = inr usr →
          let kubeconfig := w_filepath_Join w [HomeDir usr; ".kube"; "config"] in
          w_BuildConfigFromFlags w "" kubeconfig = None →
          w_kubernetes_NewForConfig w (BuildConfig "" kubeconfig) = None →
          w_gatewayclient_NewForConfig w (BuildConfig "" kubeconfig) = Some e →
          main w
          = ([Printf ("Error creating Gateway API clientset: %v" +:+ LF) [e]],
             Exit 1)).
Proof.
  split; [|split; [|split; [|split; [|split]]]].
  - intros usr err Hparse Hname Hns Husr kubeconfig config Hconfig Hkube.
    pose proof (flags_given w Hname Hns) as Hflags.
    split; [|split; [|split; [|split]]].
    + unfold_main. rewrite Hparse. simpl. rewrite Hflags, Husr. simpl.
      fold kubeconfig. rewrite Hconfig. simpl. fold config. rewrite Hkube. simpl.
      by repeat (split_world; simpl).
    + intros e Hgwc. unfold_main. rewrite Hparse. simpl.
      rewrite Hflags, Husr. simpl. fold kubeconfig.
      rewrite Hconfig. simpl. fold config. by rewrite Hkube, Hgwc.
    + intros Hgwc. unfold_main. rewrite Hparse. simpl.
      rewrite Hflags, Husr. simpl. fold kubeconfig.
      rewrite Hconfig. simpl. fold config. rewrite Hkube, Hgwc. simpl.
      repeat (split_world; simpl); apply list_elem_of_In; simpl; tauto.
    + intros gw Hgwc Hget. unfold_main. rewrite Hparse. simpl.
      rewrite Hflags, Husr. simpl. fold kubeconfig.
      rewrite Hconfig. simpl. fold config.
      rewrite Hkube, Hgwc. simpl. rewrite Hget. simpl.
      destruct (w_synced_at w Services) as [t|]; simpl.
      * by repeat split.
      * by repeat split.
    + intros t tick gw. unfold_main. rewrite Hparse. simpl.
      rewrite Hflags, Husr. simpl. fold kubeconfig.
      rewrite Hconfig. simpl. fold config. rewrite Hkube. simpl.
      repeat (split_world; simpl); not_in_trace.
  - intros code Hparse. unfold_main. by rewrite Hparse.
  - intros Hparse Hflags. unfold_main. rewrite Hparse. simpl.
    by rewrite bool_decide_eq_true_2.
  - intros e Hparse Hname Hns Husr. unfold_main. rewrite Hparse. simpl.
    by rewrite (flags_given w Hname Hns), Husr.
  - intros usr e Hparse Hname Hns Husr Hconfig. unfold_main.
    rewrite Hparse. simpl.
    rewrite (flags_given w Hname Hns), Husr. simpl. by rewrite Hconfig.
  - intros usr e Hparse Hname Hns Husr kubeconfig Hconfig Hkube Hgwc.
    unfold_main. rewrite Hparse. simpl.
    rewrite (flags_given w Hname Hns), Husr. simpl. fold kubeconfig.
    rewrite Hconfig. simpl. by rewrite Hkube, Hgwc.
Qed.

End KubeClient.

(** * Properties of the modelled translator *)

Section BuilderMonad.
Import K8s XDS Translator.

Context {A B : Type}.

(** An invariant of the memo table and a relation between items and
    results are carried through a traversal. *)
Lemma traverse_inv (f : A → Build B) (I : gmap string Cluster → Prop)
    (Q : A → B → Prop) (l : list A) memo ys memo' :
  (∀ x m y m', x ∈ l → I m → f x m = inr (y, m') → I m' ∧ Q x y) →
  I memo → traverse f l memo = inr (ys, memo') →
  I memo' ∧ Forall2 Q l ys.
Proof.
  revert memo ys. induction l as [|x l IH]; intros memo ys Hstep Hinv Hrun.
  - cbn in Hrun. unfold ret in Hrun. simplify_eq. by split.
  - cbn in Hrun. unfold bind at 1 in Hrun.
    destruct (f x memo) as [e|[y m1]] eqn:Hfx; [done|].
    unfold bind at 1 in Hrun.
    destruct (traverse f l m1) as [e|[ys' m2]] eqn:Hrest; [done|].
    unfold ret in Hrun. simplify_eq.
    destruct (Hstep x memo y m1) as [Hm1 Hq]; [by left|done..|].
    destruct (IH m1 ys') as [Hm2 Hall]; [|done..|].
    { intros x' m y' m' Hx'. apply Hstep. by right. }
    split; [done|]. by constructor.
Qed.

Lemma traverse_ext (f g : A → Build B) (l : list A) memo :
  (∀ x m, x ∈ l → f x m = g x m) → traverse f l memo = traverse g l memo.
Proof.
  revert memo. induction l as [|x l IH]; intros memo Hfg; [done|].
  cbn. unfold bind at 1 3. rewrite Hfg by (by left).
  destruct (g x memo) as [e|[y m1]]; [done|].
  unfold bind. rewrite IH; [done|]. intros x' m Hx'. apply Hfg. by right.
Qed.

Lemma traverse_pure_Forall2 (f : A → TranslateError + B) (l : list A) ys :
  traverse_pure f l = inr ys → Forall2 (λ x y, f x = inr y) l ys.
Proof.
  revert ys. induction l as [|x l IH]; intros ys Hrun; cbn in Hrun.
  - simplify_eq. constructor.
  - destruct (f x) as [e|y] eqn:Hfx; [done|].
    destruct (traverse_pure f l) as [e|ys']; [done|].
    simplify_eq. constructor; auto.
Qed.

Lemma traverse_pure_ext (f g : A → TranslateError + B) (l : list A) :
  (∀ x, x ∈ l → f x = g x) → traverse_pure f l = traverse_pure g l.
Proof.
  induction l as [|x l IH]; intros Hfg; [done|].
  cbn. rewrite Hfg by (by left). rewrite IH; [done|].
  intros x' Hx'. apply Hfg. by right.
Qed.

End BuilderMonad.

Section Aggregator.
Import K8s XDS Translator.

Context {A : Type} (name : A → string).

Lemma dedup_by_fresh seen l x :
  x ∈ dedup_by name seen l → x ∈ l ∧ name x ∉ seen.
Proof.
  revert seen. induction l as [|y l IH]; intros seen Hx; cbn in Hx.
  - by apply elem_of_nil in Hx.
  - destruct (decide (name y ∈ seen)) as [Hseen|Hfresh].
    + destruct (IH _ Hx). split; [by right|done].
    + apply elem_of_cons in Hx as [->|Hx]; [by split; [left|]|].
      destruct (IH _ Hx) as [? Hnot]. split; [by right|set_solver].
Qed.

(** The Aggregator's output has no two resources of one name. *)
Lemma dedup_by_NoDup seen l : NoDup (name <$> dedup_by name seen l).
Proof.
  revert seen. induction l as [|y l IH]; intros seen; cbn; [constructor|].
  destruct (decide (name y ∈ seen)); [apply IH|].
  rewrite fmap_cons. constructor; [|apply IH].
  intros (z & Hname & Hz)%list_elem_of_fmap.
  apply dedup_by_fresh in Hz as [_ Hz]. set_solver.
Qed.

(** Every name that went in and was not seen before comes out. *)
Lemma dedup_by_keeps seen l x :
  x ∈ l → name x ∉ seen → name x ∈ name <$> dedup_by name seen l.
Proof.
  revert seen. induction l as [|y l IH]; intros seen Hx Hfresh.
  - by apply elem_of_nil in Hx.
  - cbn. destruct (decide (name y ∈ seen)) as [Hseen|Hy].
    + apply elem_of_cons in Hx as [->|Hx]; [done|]. by apply IH.
    + rewrite fmap_cons. destruct (decide (name x = name y)) as [->|Hne].
      * by left.
      * right. apply elem_of_cons in Hx as [->|Hx]; [done|].
        apply IH; [done|set_solver].
Qed.


(** Among distinct names, a name that occurs is carried by one element. *)
Lemma unique_name_count (l : list A) n :
  NoDup (name <$> l) → n ∈ name <$> l →
  length (filter (λ x, name x = n) l) = 1%nat.
Proof.
  induction l as [|y l IH]; intros Hnd Hin.
  - by apply elem_of_nil in Hin.
  - rewrite fmap_cons in Hnd, Hin. apply NoDup_cons in Hnd as [Hy Hnd].
    rewrite filter_cons. destruct (decide (name y = n)) as [<-|Hne].
    + cbn. f_equal.
      assert (filter (λ x, name x = name y) l = []) as ->; [|done].
      clear -Hy. induction l as [|z l IH]; [done|].
      rewrite fmap_cons in Hy. apply not_elem_of_cons in Hy as [Hne Hy].
      rewrite filter_cons_False by congruence. auto.
    + apply IH; [done|].
      apply elem_of_cons in Hin as [->|Hin]; done.
Qed.

End Aggregator.

Section Resolver.
Import K8s XDS Translator.

(** C5: [Authorize] answers true exactly when the two namespaces are the
    same, or some ReferenceGrant in namespace [toNS] declares source
    namespace and kind [fromNS]/[fromKind], target kind [toKind], and no
    target name or the target name [toName]. *)
Theorem Authorize_iff (idx : Index) (fromNS fromKind toNS toKind toName : string) :
  Authorize idx fromNS fromKind toNS toKind toName = true ↔
  fromNS = toNS
  ∨ ∃ g, g ∈ idx_referencegrants idx
         ∧ rg_namespace g = toNS
         ∧ rg_from_namespace g = fromNS
         ∧ rg_from_kind g = fromKind
         ∧ rg_to_kind g = toKind
         ∧ (rg_to_name g = None ∨ rg_to_name g = Some toName).
Proof.
  unfold Authorize. destruct (decide (fromNS = toNS)) as [Heq|Hne].
  { split; [by left|done]. }
  rewrite existsb_exists. split.
  - intros (g & Hg & Hmatch). right. exists g.
    apply list_elem_of_In, list_elem_of_filter in Hg as [Hns Hg].
    unfold grant_matches in Hmatch.
    repeat (apply andb_true_iff in Hmatch as [Hmatch ?]).
    destruct (rg_to_name g) as [n|].
    all: repeat match goal with
                | H : bool_decide _ = true |- _ => apply bool_decide_eq_true in H
                end.
    all: repeat split; try done.
    + right. by f_equal.
    + by left.
  - intros [?|(g & Hg & Hns & Hfrom & Hkind & Hto & Hname)]; [done|].
    exists g. split.
    { apply list_elem_of_In, list_elem_of_filter. by split. }
    unfold grant_matches.
    rewrite !bool_decide_eq_true_2 by done. cbn.
    destruct Hname as [->| ->]; [done|]. by apply bool_decide_eq_true.
Qed.

End Resolver.

Section Graph.
Import K8s XDS Translator.

Lemma aggregate_inv idx gw g :
  aggregate idx gw = inr g →
  ∃ built memo,
    traverse (translate_listener idx gw) (gw_listeners gw) ∅ = inr (built, memo)
    ∧ g_listeners g = dedup_by lis_name ∅ (fst <$> built)
    ∧ g_routes g = dedup_by rc_name ∅ ((λ b, b.2.1) <$> built)
    ∧ g_clusters g = dedup_by cl_name ∅ (concat ((λ b, b.2.2) <$> built))
    ∧ g_endpoints g = load_assignment <$> g_clusters g.
Proof.
  unfold aggregate. intros Hagg.
  destruct (traverse _ _ _) as [e|[built memo]]; [done|].
  simplify_eq. by exists built, memo.
Qed.

Lemma TranslateGatewayToXDS_inv idx gw out :
  TranslateGatewayToXDS idx gw = inr out →
  ∃ g, aggregate idx gw = inr g ∧ out = to_resources g.
Proof.
  unfold TranslateGatewayToXDS. intros Hout.
  destruct (aggregate idx gw) as [e|g]; [done|]. simplify_eq. by exists g.
Qed.

(** The mapping has exactly the four kinds, each holding its typed list. *)
Lemma to_resources_lookup g kind rs :
  to_resources g !! kind = Some rs ↔
  (kind = ListenerType ∧ rs = RListener <$> g_listeners g)
  ∨ (kind = RouteType ∧ rs = RRoute <$> g_routes g)
  ∨ (kind = ClusterType ∧ rs = RCluster <$> g_clusters g)
  ∨ (kind = EndpointType ∧ rs = REndpoint <$> g_endpoints g).
Proof.
  unfold to_resources.
  rewrite !lookup_insert_Some, lookup_singleton_Some.
  assert (ListenerType ≠ RouteType) by done.
  assert (ListenerType ≠ ClusterType) by done.
  assert (ListenerType ≠ EndpointType) by done.
  assert (RouteType ≠ ClusterType) by done.
  assert (RouteType ≠ EndpointType) by done.
  assert (ClusterType ≠ EndpointType) by done.
  naive_solver.
Qed.


Lemma translate_listener_inv idx gw l memo lis rc memo' :
  translate_listener idx gw l memo = inr ((lis, rc), memo') →
  BuildListener idx gw l = inr lis ∧ BuildRoutes idx gw l memo = inr (rc, memo').
Proof.
  unfold translate_listener, bind, lift, ret. intros Hrun.
  destruct (BuildListener idx gw l) as [e|lis']; [done|].
  destruct (BuildRoutes idx gw l memo) as [e|[rc' m]]; [done|].
  by simplify_eq.
Qed.

#[local] Instance listener_resource_name_inj gw :
  Inj (=) (=) (λ name, gw_namespace gw +:+ "/" +:+ gw_name gw +:+ "/" +:+ name).
Proof. intros n1 n2 Heq. by repeat apply (inj (String.app _)) in Heq. Qed.


End Graph.

Section Clusters.
Import K8s XDS Translator.

Lemma Forall2_elem_of_l {A B} (P : A → B → Prop) l k x :
  Forall2 P l k → x ∈ l → ∃ y, y ∈ k ∧ P x y.
Proof.
  induction 1 as [|x' y' l k Hxy _ IH]; intros Hx.
  - by apply elem_of_nil in Hx.
  - apply elem_of_cons in Hx as [->|Hx].
    + exists y'. split; [by left|done].
    + destruct (IH Hx) as (y & Hy & HP). exists y. split; [by right|done].
Qed.

Lemma elem_of_concat {A} (x : A) (ls : list (list A)) :
  x ∈ concat ls ↔ ∃ l, l ∈ ls ∧ x ∈ l.
Proof.
  rewrite list_elem_of_In, in_concat. split.
  - intros (l & Hl & Hx). exists l. by rewrite !list_elem_of_In.
  - intros (l & Hl & Hx). exists l. by rewrite <-!list_elem_of_In.
Qed.

Lemma memo_named_empty : memo_named ∅.
Proof. intros n c Hn. by rewrite lookup_empty in Hn. Qed.

(** The Cluster Builder returns a Cluster that carries the backend's
    deterministic name, whether it was built or found in the table. *)
Lemma BuildCluster_spec idx b memo c memo' :
  memo_named memo → BuildCluster idx b memo = inr (c, memo') →
  memo_named memo' ∧ cluster_of_backend idx b c.
Proof.
  unfold BuildCluster. intros Hinv Hrun.
  destruct (idx_services idx !! _) as [svc|] eqn:Hsvc; [|done].
  destruct (resolve_port svc _) as [port|] eqn:Hport; [|done].
  cbn in Hrun.
  destruct (memo !! _) as [c'|] eqn:Hmemo; simplify_eq.
  - split; [done|]. exists svc, port. repeat split; try done. by apply Hinv.
  - split; [|by exists svc, port].
    intros n c Hn. apply lookup_insert_Some in Hn as [[<- <-]|[_ Hn]]; [done|].
    by apply Hinv.
Qed.

(** Asking again for a backend's Cluster returns the instance in the
    table and leaves the table as it is. *)
Lemma BuildCluster_memoized idx b memo c memo' :
  BuildCluster idx b memo = inr (c, memo') →
  BuildCluster idx b memo' = inr (c, memo').
Proof.
  unfold BuildCluster. intros Hrun.
  destruct (idx_services idx !! _) as [svc|]; [|done].
  destruct (resolve_port svc _) as [port|]; [|done].
  cbn in *.
  destruct (memo !! _) as [c'|] eqn:Hmemo; simplify_eq.
  - by rewrite Hmemo.
  - by rewrite lookup_insert_eq.
Qed.

Lemma backend_cluster_spec idx ns b memo c memo' :
  memo_named memo → backend_cluster idx ns b memo = inr (c, memo') →
  memo_named memo' ∧ cluster_of_backend idx b c.
Proof.
  unfold backend_cluster. destruct (Authorize _ _ _ _ _ _); [|done].
  apply BuildCluster_spec.
Qed.

Lemma translate_rule_inv idx ns rule memo route cs memo' :
  translate_rule idx ns rule memo = inr ((route, cs), memo') →
  ∃ m fs,
    translate_match (rule_match rule) = inr m
    ∧ traverse (backend_cluster idx ns) (rule_backendRefs rule) memo
      = inr (cs, memo')
    ∧ traverse_pure translate_filter (rule_filters rule) = inr fs
    ∧ route =
        {| rt_match := m;
           rt_action :=
             {| wc_clusters :=
                  zip_with (λ c w, {| cw_name := cl_name c; cw_weight := w |})
                    cs (action_weights (rule_backendRefs rule));
                wc_total_weight :=
                  sum_weights (action_weights (rule_backendRefs rule)) |};
           rt_filters := fs |}.
Proof.
  unfold translate_rule, bind, lift, ret. intros Hrun.
  destruct (translate_match _) as [e|m]; [done|].
  destruct (traverse _ _ memo) as [e|[cs' m1]]; [done|].
  destruct (traverse_pure _ _) as [e|fs]; [done|].
  simplify_eq. by exists m, fs.
Qed.

Lemma translate_rule_clusters idx ns rule memo route cs memo' :
  memo_named memo →
  translate_rule idx ns rule memo = inr ((route, cs), memo') →
  memo_named memo' ∧ Forall2 (cluster_of_backend idx) (rule_backendRefs rule) cs.
Proof.
  intros Hinv (m & fs & _ & Hcs & _)%translate_rule_inv.
  eapply traverse_inv; [|done..].
  intros b m0 c m1 _. apply backend_cluster_spec.
Qed.

Lemma translate_route_clusters idx r memo hs rs memo' :
  memo_named memo →
  translate_route idx r memo = inr ((hs, rs), memo') →
  memo_named memo'
  ∧ Forall2 (λ rule rc, Forall2 (cluster_of_backend idx) (rule_backendRefs rule) rc.2)
      (hr_rules r) rs.
Proof.
  unfold translate_route, bind, ret. intros Hinv Hrun.
  destruct (traverse _ _ memo) as [e|[rs' m1]] eqn:Hrules; [done|].
  simplify_eq. eapply traverse_inv; [|done..].
  intros rule m0 [route cs] m2 _. apply translate_rule_clusters.
Qed.

Lemma elem_of_attached_routes idx gw l r :
  r ∈ attached_routes idx gw l ↔ r ∈ idx_httproutes idx ∧ attaches gw l r = true.
Proof.
  unfold attached_routes. rewrite merge_sort_Permutation, list_elem_of_filter.
  rewrite Is_true_true. tauto.
Qed.

(** Every backend of every rule of every route attached to a listener has
    its Cluster among those the Route Builder collected. *)
Lemma BuildRoutes_clusters idx gw l memo rc cs memo' :
  memo_named memo →
  BuildRoutes idx gw l memo = inr ((rc, cs), memo') →
  memo_named memo'
  ∧ ∀ r rule b,
      r ∈ attached_routes idx gw l → rule ∈ hr_rules r →
      b ∈ rule_backendRefs rule →
      ∃ c, c ∈ cs ∧ cluster_of_backend idx b c.
Proof.
  unfold BuildRoutes, bind, ret. intros Hinv Hrun.
  destruct (traverse _ _ memo) as [e|[per_route m1]] eqn:Hroutes; [done|].
  simplify_eq.
  apply (traverse_inv _ memo_named
           (λ r pr, Forall2 (λ rule rc, Forall2 (cluster_of_backend idx)
                                          (rule_backendRefs rule) rc.2)
                      (hr_rules r) pr.2)) in Hroutes as [Hinv' Hall]; [| |done].
  2:{ intros r m0 [hs rs] m2 _. apply translate_route_clusters. }
  split; [done|]. intros r rule b Hr Hrule Hb.
  destruct (Forall2_elem_of_l _ _ _ _ Hall Hr) as (pr & Hpr & Hrules).
  destruct (Forall2_elem_of_l _ _ _ _ Hrules Hrule) as (rcs & Hrcs & Hbs).
  destruct (Forall2_elem_of_l _ _ _ _ Hbs Hb) as (c & Hc & Hcb).
  exists c. split; [|done].
  apply elem_of_concat. exists (concat (snd <$> pr.2)). split.
  - apply list_elem_of_fmap. by exists pr.
  - apply elem_of_concat. exists rcs.2. split; [|done].
    apply list_elem_of_fmap. by exists rcs.
Qed.

(** C7: in the mapping returned by the translation, no two resources of
    one kind share a name; and a backend referenced by the rules of
    attached routes, however many of them, has exactly one Cluster. *)
Theorem resource_names_unique_per_kind (idx : Index) (gw : Gateway)
    (out : gmap string (list Resource)) :
  TranslateGatewayToXDS idx gw = inr out →
  (∀ kind rs, out !! kind = Some rs → NoDup (GetResourceName <$> rs))
  ∧ (∀ l r rule b,
       l ∈ gw_listeners gw → r ∈ idx_httproutes idx →
       attaches gw l r = true → rule ∈ hr_rules r →
       b ∈ rule_backendRefs rule →
       ∃ svc port cs,
         idx_services idx !! (br_namespace b, br_name b) = Some svc
         ∧ resolve_port svc (br_port b) = Some port
         ∧ out !! ClusterType = Some cs
         ∧ length (filter (λ c, GetResourceName c
                                = cluster_name (br_namespace b) (br_name b) port) cs)
           = 1%nat).
Proof.
  intros (g & Hagg & ->)%TranslateGatewayToXDS_inv.
  apply aggregate_inv in Hagg as (built & memo & Hrun & Hls & Hrs & Hcs & Hes).
  assert (NoDup (GetResourceName <$> (RCluster <$> g_clusters g))) as Hclusters.
  { rewrite <-list_fmap_compose, Hcs. apply (dedup_by_NoDup cl_name). }
  split.
  - intros kind rs [[_ ->]|[[_ ->]|[[_ ->]|[_ ->]]]]%to_resources_lookup.
    + rewrite <-list_fmap_compose, Hls. apply (dedup_by_NoDup lis_name).
    + rewrite <-list_fmap_compose, Hrs. apply (dedup_by_NoDup rc_name).
    + done.
    + rewrite Hes, <-!list_fmap_compose.
      by rewrite <-list_fmap_compose in Hclusters.
  - intros l r rule b Hl Hr Hatt Hrule Hb.
    apply (traverse_inv _ memo_named
             (λ l b, ∀ r rule bk,
                r ∈ attached_routes idx gw l → rule ∈ hr_rules r →
                bk ∈ rule_backendRefs rule →
                ∃ c, c ∈ b.2.2 ∧ cluster_of_backend idx bk c)) in Hrun
      as [_ Hall]; [| |apply memo_named_empty].
    2:{ intros l' m [lis [rc cs]] m' _ Hinv [_ Hroutes]%translate_listener_inv.
        by apply BuildRoutes_clusters in Hroutes. }
    destruct (Forall2_elem_of_l _ _ _ _ Hall Hl) as (bl & Hbl & Hfound).
    destruct (Hfound r rule b) as (c & Hc & svc & port & Hsvc & Hport & Hname);
      [by apply elem_of_attached_routes|done..|].
    exists svc, port, (RCluster <$> g_clusters g).
    split; [done|]. split; [done|]. split.
    { apply to_resources_lookup. auto. }
    apply (unique_name_count GetResourceName); [done|].
    rewrite <-list_fmap_compose, Hcs, <-Hname.
    apply (dedup_by_keeps cl_name); [|set_solver].
    apply elem_of_concat. exists bl.2.2. split; [|done].
    apply list_elem_of_fmap. by exists bl.
Qed.


End Clusters.

Section Routes.
Import K8s XDS Translator.

(** Every result of a traversal was returned by the step on its item, from
    some state of the memo table. *)
Lemma traverse_steps {A B} (f : A → Build B) (l : list A) memo ys memo' :
  traverse f l memo = inr (ys, memo') →
  Forall2 (λ x y, ∃ m m', f x m = inr (y, m')) l ys.
Proof.
  intros Hrun.
  apply (traverse_inv f (λ _, True) (λ x y, ∃ m m', f x m = inr (y, m')))
    in Hrun as [_ Hall]; [done| |done].
  intros x m y m' _ _ Hstep. split; [done|]. by exists m, m'.
Qed.

Lemma Forall2_elem_of_r {A B} (P : A → B → Prop) l k y :
  Forall2 P l k → y ∈ k → ∃ x, x ∈ l ∧ P x y.
Proof.
  induction 1 as [|x' y' l k Hxy _ IH]; intros Hy.
  - by apply elem_of_nil in Hy.
  - apply elem_of_cons in Hy as [->|Hy].
    + exists x'. split; [by left|done].
    + destruct (IH Hy) as (x & Hx & HP). exists x. split; [by right|done].
Qed.

(** Merging the routes of one HTTPRoute into the VirtualHosts adds those
    routes and no others. *)
Lemma add_routes_routes domains rs vhs vh rt :
  vh ∈ add_routes domains rs vhs → rt ∈ vh_routes vh →
  rt ∈ rs ∨ ∃ vh', vh' ∈ vhs ∧ rt ∈ vh_routes vh'.
Proof.
  induction vhs as [|vh0 vhs IH]; cbn; intros Hvh Hrt.
  - apply list_elem_of_singleton in Hvh as ->. by left.
  - destruct (decide (same_hostname_set (vh_domains vh0) domains)).
    + apply elem_of_cons in Hvh as [->|Hvh]; cbn in Hrt.
      * apply elem_of_app in Hrt as [Hrt|Hrt]; [|by left].
        right. exists vh0. split; [by left|done].
      * right. exists vh. split; [by right|done].
    + apply elem_of_cons in Hvh as [->|Hvh].
      * right. exists vh0. split; [by left|done].
      * destruct (IH Hvh Hrt) as [?|(vh' & Hvh' & Hrt')]; [by left|].
        right. exists vh'. split; [by right|done].
Qed.

Lemma merged_routes {R} (per_route : list (list string * list (Route * R)))
    vhs0 vh rt :
  vh ∈ foldl (λ vhs hr, add_routes hr.1 (fst <$> hr.2) vhs) vhs0 per_route →
  rt ∈ vh_routes vh →
  (∃ vh', vh' ∈ vhs0 ∧ rt ∈ vh_routes vh')
  ∨ ∃ hr, hr ∈ per_route ∧ rt ∈ fst <$> hr.2.
Proof.
  revert vhs0. induction per_route as [|hr per_route IH]; cbn; intros vhs0 Hvh Hrt.
  - left. by exists vh.
  - destruct (IH _ Hvh Hrt) as [(vh' & Hvh' & Hrt')|(hr' & Hhr' & Hrt')].
    + destruct (add_routes_routes _ _ _ _ _ Hvh' Hrt') as [Hnew|Hold].
      * right. exists hr. split; [by left|done].
      * by left.
    + right. exists hr'. split; [by right|done].
Qed.

(** Every Route in the returned mapping is the translation of one rule of
    one listed HTTPRoute. *)
Lemma emitted_routes_come_from_rules idx gw out rs rc vh rt :
  TranslateGatewayToXDS idx gw = inr out →
  out !! RouteType = Some rs → RRoute rc ∈ rs →
  vh ∈ rc_virtual_hosts rc → rt ∈ vh_routes vh →
  ∃ r rule memo cs memo',
    r ∈ idx_httproutes idx ∧ rule ∈ hr_rules r
    ∧ translate_rule idx (hr_namespace r) rule memo = inr ((rt, cs), memo').
Proof.
  intros (g & Hagg & ->)%TranslateGatewayToXDS_inv Hrs Hrc Hvh Hrt.
  apply aggregate_inv in Hagg as (built & memo & Hrun & _ & Hroutes & _).
  apply to_resources_lookup in Hrs
    as [[? _]|[[_ ->]|[[? _]|[? _]]]]; try done.
  apply list_elem_of_fmap in Hrc as (rc' & [= <-] & Hrc).
  rewrite Hroutes in Hrc. apply dedup_by_fresh in Hrc as [Hrc _].
  apply list_elem_of_fmap in Hrc as ([lis [rc' cs']] & -> & Hb). cbn in *.
  apply traverse_steps in Hrun.
  destruct (Forall2_elem_of_r _ _ _ _ Hrun Hb)
    as (l & _ & m & m' & [_ Hbuild]%translate_listener_inv).
  unfold BuildRoutes, bind, ret in Hbuild.
  destruct (traverse _ _ m) as [e|[per_route m1]] eqn:Hper; [done|].
  simplify_eq. cbn in Hvh.
  destruct (merged_routes _ _ _ _ Hvh Hrt)
    as [(vh' & Hvh' & _)|(hr & Hhr & Hrt')]; [by apply elem_of_nil in Hvh'|].
  apply traverse_steps in Hper.
  destruct (Forall2_elem_of_r _ _ _ _ Hper Hhr) as (r & Hr & m2 & m3 & Hroute).
  apply elem_of_attached_routes in Hr as [Hr _].
  unfold translate_route, bind, ret in Hroute.
  destruct (traverse _ _ m2) as [e|[rts m4]] eqn:Hrules; [done|].
  simplify_eq. cbn in Hrt'.
  apply list_elem_of_fmap in Hrt' as ([rt' cs] & -> & Hrtcs).
  apply traverse_steps in Hrules.
  destruct (Forall2_elem_of_r _ _ _ _ Hrules Hrtcs)
    as (rule & Hrule & m5 & m6 & Htr).
  by exists r, rule, m5, cs, m6.
Qed.

End Routes.

Section Reproducibility.
Import K8s XDS Translator Main.

#[local] Instance key_le_trans : Transitive key_le.
Proof.
  intros [a1 b1] [a2 b2] [a3 b3]. unfold key_le. cbn.
  intros [[Hne12 Hle12]|[-> Hle12]] [[Hne23 Hle23]|[-> Hle23]].
  - left. split; [|by etrans].
    intros ->. apply Hne12. by apply (anti_symm String.le).
  - by left.
  - by left.
  - right. split; [done|by etrans].
Qed.

#[local] Instance key_le_total : Total key_le.
Proof.
  intros [a1 b1] [a2 b2]. unfold key_le. cbn.
  destruct (decide (a1 = a2)) as [->|Hne].
  - destruct (total String.le b1 b2); [left|right]; by right.
  - destruct (total String.le a1 a2); [left|right]; left; by split.
Qed.

Lemma key_le_antisym k1 k2 : key_le k1 k2 → key_le k2 k1 → k1 = k2.
Proof.
  destruct k1 as [a1 b1], k2 as [a2 b2]. unfold key_le. cbn.
  intros [[Hne Hle]|[-> Hle]] [[Hne' Hle']|[Heq Hle']]; try done.
  - destruct Hne. by apply (anti_symm String.le).
  - f_equal. by apply (anti_symm String.le).
Qed.

#[local] Instance route_le_trans : Transitive route_le.
Proof. intros r1 r2 r3. unfold route_le. apply key_le_trans. Qed.

#[local] Instance route_le_total : Total route_le.
Proof. intros r1 r2. unfold route_le. apply key_le_total. Qed.

Lemma NoDup_fmap_eq {A B} (f : A → B) (l : list A) x y :
  NoDup (f <$> l) → x ∈ l → y ∈ l → f x = f y → x = y.
Proof.
  induction l as [|z l IH]; intros Hnd Hx Hy Heq.
  - by apply elem_of_nil in Hx.
  - rewrite fmap_cons in Hnd. apply NoDup_cons in Hnd as [Hz Hnd].
    apply elem_of_cons in Hx as [->|Hx]; apply elem_of_cons in Hy as [->|Hy].
    + done.
    + destruct Hz. rewrite Heq. by apply list_elem_of_fmap_2.
    + destruct Hz. rewrite <-Heq. by apply list_elem_of_fmap_2.
    + by apply IH.
Qed.

Lemma existsb_Permutation {A} (f : A → bool) (l k : list A) :
  l ≡ₚ k → existsb f l = existsb f k.
Proof.
  induction 1 as [|x l k _ IH|x y l|l k m _ IH1 _ IH2]; cbn.
  - done.
  - by rewrite IH.
  - by destruct (f x), (f y).
  - by rewrite IH1.
Qed.

Context (idx1 idx2 : Index).
Context (Hsame : same_snapshot idx1 idx2) (Hkeys : unique_route_keys idx1).

(** The order in which the cache lists the grants does not change what
    the Reference Resolver answers. *)
Lemma Authorize_same fromNS fromKind toNS toKind toName :
  Authorize idx1 fromNS fromKind toNS toKind toName
  = Authorize idx2 fromNS fromKind toNS toKind toName.
Proof.
  destruct Hsame as (_ & _ & _ & Hgrants).
  unfold Authorize. destruct (decide (fromNS = toNS)); [done|].
  apply existsb_Permutation. by rewrite Hgrants.
Qed.

(** Sorting by (namespace, name) makes the attached routes independent of
    the order in which the cache lists them. *)
Lemma attached_routes_same gw l :
  attached_routes idx1 gw l = attached_routes idx2 gw l.
Proof.
  destruct Hsame as (_ & _ & Hroutes & _).
  unfold attached_routes.
  apply (Sorted_unique_strong route_le).
  - intros r1 r2 Hr1 Hr2 Hle Hge.
    rewrite merge_sort_Permutation, list_elem_of_filter in Hr1, Hr2.
    destruct Hr1 as [_ Hr1], Hr2 as [_ Hr2]. rewrite <-Hroutes in Hr2.
    apply (NoDup_fmap_eq route_key (idx_httproutes idx1)); [done..|].
    by apply key_le_antisym.
  - apply (Sorted_merge_sort route_le).
  - apply (Sorted_merge_sort route_le).
  - by rewrite !merge_sort_Permutation, Hroutes.
Qed.

Lemma backend_cluster_same ns b memo :
  backend_cluster idx1 ns b memo = backend_cluster idx2 ns b memo.
Proof.
  unfold backend_cluster, BuildCluster. rewrite Authorize_same.
  destruct Hsame as (-> & _). done.
Qed.

Lemma translate_rule_same ns rule memo :
  translate_rule idx1 ns rule memo = translate_rule idx2 ns rule memo.
Proof.
  unfold translate_rule, Translator.bind.
  destruct (lift (translate_match _) memo) as [e|[m m0]]; [done|].
  rewrite (traverse_ext _ (backend_cluster idx2 ns)); [done|].
  intros b m1 _. apply backend_cluster_same.
Qed.

Lemma translate_route_same r memo :
  translate_route idx1 r memo = translate_route idx2 r memo.
Proof.
  unfold translate_route, Translator.bind.
  rewrite (traverse_ext _ (translate_rule idx2 (hr_namespace r))); [done|].
  intros rule m _. apply translate_rule_same.
Qed.

Lemma BuildRoutes_same gw l memo :
  BuildRoutes idx1 gw l memo = BuildRoutes idx2 gw l memo.
Proof.
  unfold BuildRoutes, Translator.bind. rewrite attached_routes_same.
  rewrite (traverse_ext _ (translate_route idx2)); [done|].
  intros r m _. apply translate_route_same.
Qed.

Lemma BuildListener_same gw l :
  BuildListener idx1 gw l = BuildListener idx2 gw l.
Proof.
  unfold BuildListener. destruct (l_tls l) as [tls|]; [|done].
  rewrite (traverse_pure_ext _ (resolve_certificate idx2 gw)); [done|].
  intros ref _. unfold resolve_certificate. rewrite Authorize_same.
  destruct Hsame as (_ & -> & _). done.
Qed.

Lemma aggregate_same gw : aggregate idx1 gw = aggregate idx2 gw.
Proof.
  unfold aggregate.
  rewrite (traverse_ext _ (translate_listener idx2 gw)); [done|].
  intros l m _. unfold translate_listener, Translator.bind.
  rewrite BuildListener_same.
  destruct (lift (BuildListener idx2 gw l) m) as [e|[lis m0]]; [done|].
  by rewrite BuildRoutes_same.
Qed.

Lemma generateXDS_inv w resources t s e :
  generateXDS w resources = (t, Val (s, e)) →
  s = {| snap_version := w_time_Now w; snap_resources := resources |} ∧ e = None.
Proof.
  unfold generateXDS, mbind, Proc_bind, Main.bind, emit, os_Exit, Main.ret.
  destruct (w_NewSnapshot w (w_time_Now w) resources); cbn; [done|].
  intros. by simplify_eq.
Qed.

(** C4: two translations of one unchanged snapshot, whichever way the
    cache lists its routes and grants, return the same mapping (or the same
    error); the snapshots [generateXDS] builds from them hold the same
    resources and differ at most in the version, which is the time of the
    run. *)
Theorem retranslation_differs_only_in_version (gw : Gateway) (w1 w2 : World) :
  TranslateGatewayToXDS idx1 gw = TranslateGatewayToXDS idx2 gw
  ∧ ∀ r1 r2 t1 t2 s1 s2 e1 e2,
      TranslateGatewayToXDS idx1 gw = inr r1 →
      TranslateGatewayToXDS idx2 gw = inr r2 →
      generateXDS w1 r1 = (t1, Val (s1, e1)) →
      generateXDS w2 r2 = (t2, Val (s2, e2)) →
      r1 = r2
      ∧ snap_resources s1 = snap_resources s2
      ∧ snap_version s1 = w_time_Now w1
      ∧ snap_version s2 = w_time_Now w2.
Proof.
  assert (TranslateGatewayToXDS idx1 gw = TranslateGatewayToXDS idx2 gw) as Heq.
  { unfold TranslateGatewayToXDS. by rewrite aggregate_same. }
  split; [done|].
  intros r1 r2 t1 t2 s1 s2 e1 e2 Hr1 Hr2
    [-> _]%generateXDS_inv [-> _]%generateXDS_inv.
  rewrite Heq, Hr2 in Hr1. by simplify_eq.
Qed.

End Reproducibility.

(** * The theorems at concrete inputs *)

Import Translator Demo.

(** The demo translation succeeds with [translated]. *)
Lemma demo_translation : TranslateGatewayToXDS idx g1 = inr translated.
Proof.
  unfold TranslateGatewayToXDS, translated.
  assert (aggregate idx g1 = inr translated_graph) as ->; [|reflexivity].
  vm_compute. reflexivity.
Defined.

(** C1, on the code: in a world where only the three informers that
    [main] waits for ever sync, [main] still calls the translator, hands it
    the listers of all six informers, and runs to the end, although the
    Namespaces, Secrets and ReferenceGrants informers have not synced at
    that moment. *)
Lemma translator_called_before_all_listers_synced :
  let w := world [] only_waited_synced in
  let t := {| t_kubeClient := Some (KubeClientFor demo_config);
              t_gatewayClient := GatewayClientFor demo_config;
              t_listers := [Namespaces; Services; Secrets;
                            Gateways; HTTPRoutes; ReferenceGrants] |} in
  Translate t 2 g1 ∈ trace (main w)
  ∧ result (main w) = Val tt
  ∧ HasSynced w Namespaces 2 = false
  ∧ HasSynced w Secrets 2 = false
  ∧ HasSynced w ReferenceGrants 2 = false
  ∧ HasSynced w Services 2 = true
  ∧ HasSynced w Gateways 2 = true
  ∧ HasSynced w HTTPRoutes 2 = true.
Proof.
  intros w t. split.
  - apply (list_elem_of_lookup_2 _ 5). vm_compute. reflexivity.
  - repeat split; vm_compute; reflexivity.
Qed.

(** A run in which everything succeeds: the file is written, after the
    check passed. *)
Lemma output_written_only_if_consistent_witness :
  let w := world [] all_synced in
  WriteFile "envoy-xds.json" "{}" perm_0644 ∈ trace (main w)
  ∧ ∃ j t tick gw resources,
      Translate t tick gw ∈ trace (main w)
      ∧ w_TranslateGatewayToXDS w t tick gw = inr resources
      ∧ let s := {| snap_version := w_time_Now w;
                    snap_resources := resources |} in
        trace (main w) !! j = Some (WriteFile "envoy-xds.json" "{}" perm_0644)
        ∧ Consistent s ∈ take j (trace (main w))
        ∧ w_Consistent w s = None
        ∧ w_MarshalIndent w s = inr "{}"
        ∧ "envoy-xds.json" = w_outputFile w.
Proof.
  intros w.
  assert (WriteFile "envoy-xds.json" "{}" perm_0644 ∈ trace (main w)) as Hin.
  { apply (list_elem_of_lookup_2 _ 9). vm_compute. reflexivity. }
  split; [exact Hin|].
  exact (proj1 (output_written_only_if_consistent w) _ _ _ Hin).
Defined.

(** A run in which the Gateway fetch fails. *)
Lemma stage_error_aborts_without_output_witness :
  let w := world [AtGatewayFetch] all_synced in
  result (main w) = Exit 1
  ∧ (∃ format args,
       last (trace (main w)) = Some (Printf format args)
       ∧ last args = Some "boom")
  ∧ ∀ path data perm, WriteFile path data perm ∉ trace (main w).
Proof.
  intros w.
  apply (stage_error_aborts_without_output w
           (GetGateway (GatewayClientFor demo_config) "ns1" "g1") "boom").
  - apply (list_elem_of_lookup_2 _ 0). vm_compute. reflexivity.
  - vm_compute. reflexivity.
Defined.

(** C9, on the code: in a run in which only the creation of
    the Kubernetes client fails, the error is printed and the informers are
    started over the nil client, but execution does not continue into
    translation: the process dies in the wait for the caches and the
    translator is never called. *)
Lemma kube_client_failure_never_reaches_translation :
  let w := world [AtKubeClient] all_synced in
  w_kubernetes_NewForConfig w demo_config = Some "boom"
  ∧ head (trace (main w))
    = Some (Printf ("Error creating kube client: %v" +:+ LF) ["boom"])
  ∧ last (trace (main w)) = Some (GoStart (CoreInformers None))
  ∧ result (main w) = Panic
  ∧ ¬ ∃ t tick gw, Translate t tick gw ∈ trace (main w).
Proof.
  intros w. repeat split; try (vm_compute; reflexivity).
  intros (t & tick & gw & Hin). apply list_elem_of_In in Hin.
  vm_compute in Hin. repeat (destruct Hin as [Hin|Hin]); try discriminate Hin.
  exact Hin.
Qed.

(** A run in which only the creation of the Kubernetes client fails. *)
Lemma kube_client_failure_only_printed_witness :
  let w := world [AtKubeClient] only_waited_synced in
  head (trace (main w))
  = Some (Printf ("Error creating kube client: %v" +:+ LF) ["boom"])
  ∧ trace (main w)
    = [Printf ("Error creating kube client: %v" +:+ LF) ["boom"];
       GetGateway (GatewayClientFor demo_config) "ns1" "g1";
       Printf ("Fetched Gateway: %s/%s" +:+ LF) ["ns1"; "g1"];
       GoStart (GatewayInformers (GatewayClientFor demo_config));
       GoStart (CoreInformers None)]
  ∧ result (main w) = Panic
  ∧ ∀ t tick gw, Translate t tick gw ∉ trace (main w).
Proof.
  intros w.
  destruct (proj1 (kube_client_failure_only_printed w)
              {| HomeDir := "/home/dev" |} "boom")
    as (Hhead & _ & _ & Hrun & Hnever).
  - vm_compute. reflexivity.
  - vm_compute. discriminate.
  - vm_compute. discriminate.
  - vm_compute. reflexivity.
  - vm_compute. reflexivity.
  - vm_compute. reflexivity.
  - destruct (Hrun g1) as (Htrace & Hpanic & _).
    + vm_compute. reflexivity.
    + vm_compute. reflexivity.
    + split; [exact Hhead|]. split; [exact Htrace|].
      split; [|exact Hnever]. apply Hpanic. vm_compute. discriminate.
Defined.

(** [generateXDS] on the demo mapping. *)
Lemma generateXDS_never_returns_error_witness :
  let w := world [] all_synced in
  generateXDS w translated
  = ([NewSnapshot (w_time_Now w) translated],
     Val ({| snap_version := w_time_Now w; snap_resources := translated |}, None)).
Proof.
  intros w.
  apply (proj1 (proj2 (proj2 (generateXDS_never_returns_error w)))).
  vm_compute. reflexivity.
Defined.



(** The Clusters of the demo translation, three routes over two
    backends. *)
Lemma resource_names_unique_per_kind_witness :
  TranslateGatewayToXDS idx g1 = inr translated
  ∧ NoDup (GetResourceName <$> (RCluster <$> g_clusters translated_graph)).
Proof.
  split; [exact demo_translation|].
  apply (proj1 (resource_names_unique_per_kind idx g1 translated
                  demo_translation) ClusterType).
  apply to_resources_lookup. right. right. left. split; reflexivity.
Defined.


(** The demo objects listed in two different orders. *)
Lemma retranslation_differs_only_in_version_witness :
  TranslateGatewayToXDS idx g1 = TranslateGatewayToXDS idx_relisted g1.
Proof.
  apply (retranslation_differs_only_in_version idx idx_relisted);
    [|apply (bool_decide_unpack _); vm_compute; exact I
     |exact (world [] all_synced)|exact (world [] all_synced)].
  repeat split.
  - unfold idx, idx_relisted, index_with. cbn.
    etrans; [apply perm_swap|]. etrans; [apply perm_skip, perm_swap|].
    apply perm_swap.
  - unfold idx, idx_relisted, index_with. cbn.
    etrans; [apply perm_swap|]. etrans; [apply perm_skip, perm_swap|].
    apply perm_swap.
Defined.

(** Each of the five stages of C3, failing alone: the run exits with
    status 1 right after printing the stage's error. *)
Example every_stage_error_exits :
  (λ s, let run := main (world [s] all_synced) in
        (result run, last (trace run)))
    <$> [AtGatewayFetch; AtTranslate; AtNewSnapshot; AtConsistent; AtMarshal]
  = [ (Exit 1, Some (Printf ("Error fetching Gateway %s/%s: %v" +:+ LF)
                       ["ns1"; "g1"; "boom"]));
      (Exit 1, Some (Printf ("Error translating Gateway to XDS: %v" +:+ LF)
                       ["boom"]));
      (Exit 1, Some (Printf ("Error generating snapshot: %v" +:+ LF) ["boom"]));
      (Exit 1, Some (Printf ("Snapshot is inconsistent: %v" +:+ LF) ["boom"]));
      (Exit 1, Some (Printf ("Error marshaling XDS to JSON: %v" +:+ LF)
                       ["boom"])) ].
Proof. vm_compute. reflexivity. Qed.

(** The spec's weighted example through the whole translation: backends
    A:2 and B:1 on the rule of [r2] come out with weights 2 and 1 and
    total 3, and the two routes that share [svc1:8080] leave one Cluster. *)
Example weighted_backends_through_translation :
  match aggregate idx g1 with
  | inr g =>
      ((λ rc, (λ vh, (λ rt, (cw_weight <$> wc_clusters (rt_action rt),
                              wc_total_weight (rt_action rt)))
                       <$> vh_routes vh) <$> rc_virtual_hosts rc)
         <$> g_routes g,
       cl_name <$> g_clusters g)
  | inl _ => ([], [])
  end
  = ([ [ [ ([Some 1%N], 1%N); ([Some 1%N], 1%N);
           ([Some 2%N; Some 1%N], 3%N) ] ]; [] ],
     ["ns1/svc1/8080"; "ns2/svc2/9090"]).
Proof. vm_compute. reflexivity. Qed.


(** * Further properties of the command *)

Section Outcomes.
Import CommandLine.

(** X1: the process exits in one of two ways: [flag.Parse] ends it with
    a status of its own before [main] has done anything else, or [main.go]
    calls [os.Exit], and then the status is 1 and the last thing the run
    did was print a line: a missing flag, and every failure on which
    [main.go] ends the run, is reported first. *)
Theorem exit_is_of_flag_parse_or_status_one_after_a_report (w : World) (code : Z) :
  result (main w) = Exit code →
  (w_flag_Parse w = Some code ∧ trace (main w) = [])
  ∨ (w_flag_Parse w = None ∧ code = 1
     ∧ ∃ e, last (trace (main w)) = Some e ∧ is_report e = true).
Proof.
  run_main; intros Hexit; simplify_eq.
  all: first [by left|right; split; [done|split; [done|by eexists]]].
Qed.

(** X2: the deferred [close(stopCh)] runs exactly in the runs in which
    [main] returns, as their last event; no run that ends in [os.Exit], no
    run that dies of a panic and no run that waits forever closes the stop
    channel. *)
Theorem stop_channel_closed_iff_main_returns (w : World) :
  (CloseStopCh ∈ trace (main w) ↔ result (main w) = Val tt)
  ∧ (result (main w) = Val tt → last (trace (main w)) = Some CloseStopCh).
Proof.
  run_main; (split; [split|]); try done.
  all: try (intros Hin; in_trace Hin).
  all: intros _; apply list_elem_of_In; simpl; tauto.
Qed.

(** X3: when [os.WriteFile] fails, the run prints the output path and the
    error, exits with status 1, and neither announces success nor closes
    the stop channel. *)
Theorem write_failure_is_reported (w : World) (path data : string) (perm : Z)
    (err : error) :
  WriteFile path data perm ∈ trace (main w) →
  w_WriteFile w path data perm = Some err →
  result (main w) = Exit 1
  ∧ last (trace (main w))
    = Some (Printf ("Error writing to output file %s: %v" +:+ LF)
              [w_outputFile w; err])
  ∧ (CloseStopCh ∉ trace (main w))
  ∧ (∀ args, Printf ("Successfully wrote XDS to %s" +:+ LF) args
             ∉ trace (main w)).
Proof.
  run_main; intros Hin Herr; in_trace Hin.
  all: try (with_answers Herr).
  all: split; [done|split; [done|split; [|intros args]]]; not_in_trace.
Qed.

(** X4: every Gateway fetch of a run goes through the clientset built from
    the kubeconfig at [.kube/config] under the current user's home
    directory, with an empty master URL, and asks for the namespace and the
    name given by the flags. *)
Theorem gateway_fetched_through_home_kubeconfig (w : World)
    (c : GatewayClient) (ns name : string) :
  GetGateway c ns name ∈ trace (main w) →
  ∃ usr, w_user_Current w = inr usr
         ∧ w_BuildConfigFromFlags w ""
             (w_filepath_Join w [HomeDir usr; ".kube"; "config"]) = None
         ∧ c = GatewayClientFor (config_of w usr)
         ∧ ns = w_gatewayNs w ∧ name = w_gatewayName w.
Proof.
  run_main; intros Hin; in_trace Hin.
  all: by eexists.
Qed.

(** X5: the translator is called on the Gateway object that the fetch
    returned, with the clientset that fetched it, with the listers of all
    six informers, at the poll at which Services, Gateways and HTTPRoutes
    had all synced; its Kubernetes client is nil exactly when creating that
    client failed. *)
Theorem translator_called_on_fetched_gateway (w : World)
    (t : TranslatorHandle) (tick : nat) (gw : Gateway) :
  Translate t tick gw ∈ trace (main w) →
  ∃ usr,
    w_user_Current w = inr usr
    ∧ t = translator_of w usr
    ∧ w_Gateways_Get w (t_gatewayClient t) (w_gatewayNs w) (w_gatewayName w)
      = inr gw
    ∧ first_synced w [Services; Gateways; HTTPRoutes] = Some tick.
Proof.
  unfold translator_of, config_of.
  run_main; intros Hin; in_trace Hin.
  all: eexists; split; [done|]; simpl.
  all: repeat match goal with
              | H : w_synced_at _ _ = _ |- _ => rewrite H
              | H : w_kubernetes_NewForConfig _ _ = _ |- _ => rewrite H
              end.
  all: by repeat split.
Qed.

(** X6: the calls of the pipeline happen in one fixed order, each at most
    once and none skipped: fetch, translate, build the snapshot, check it,
    marshal it, write the file; a run makes an initial part of this
    sequence. *)
Theorem pipeline_stages_run_in_order (w : World) :
  ∃ n, (n ≤ 6)%nat ∧ omap stage_rank (trace (main w)) = seq 0 n.
Proof.
  run_main.
  all: first [ by exists 0%nat; split; [lia|]
             | by exists 1%nat; split; [lia|]
             | by exists 2%nat; split; [lia|]
             | by exists 3%nat; split; [lia|]
             | by exists 4%nat; split; [lia|]
             | by exists 5%nat; split; [lia|]
             | by exists 6%nat; split; [lia|] ].
Qed.

(** X12: informers are started only once the Gateway has been fetched:
    a run that starts an informer factory got a Gateway from the fetch, and
    the factory is the Gateway API one over the clientset that fetched it
    or the core one over the translator's Kubernetes client. *)
Theorem informers_start_after_gateway_fetched (w : World) (f : InformerFactory) :
  GoStart f ∈ trace (main w) →
  ∃ usr gw,
    w_user_Current w = inr usr
    ∧ w_Gateways_Get w (GatewayClientFor (config_of w usr))
        (w_gatewayNs w) (w_gatewayName w) = inr gw
    ∧ (f = GatewayInformers (GatewayClientFor (config_of w usr))
       ∨ f = CoreInformers (t_kubeClient (translator_of w usr))).
Proof.
  unfold translator_of, config_of.
  run_main; intros Hin; in_trace Hin.
  all: eexists _, _; split; [done|]; split; [eassumption|]; simpl.
  all: repeat match goal with
              | H : w_kubernetes_NewForConfig _ _ = _ |- _ => rewrite H
              end.
  all: tauto.
Qed.

End Outcomes.

(** A fact recorded on the path, or an event of the computed trace. *)
Ltac close_fact :=
  first [ tauto | eassumption | reflexivity
        | apply list_elem_of_In; simpl; tauto ].

Section Completion.
Import CommandLine.


(** X7: [main] returns, which is exit status 0, exactly when [flag.Parse]
    returned, the flags are given and every step succeeded: user,
    kubeconfig, Kubernetes client, Gateway clientset, fetch, cache sync,
    translation, snapshot, consistency check, marshaling and the write of
    the marshaled snapshot to the output file with mode 0644. *)
Theorem main_returns_iff_every_step_succeeded (w : World) :
  result (main w) = Val tt ↔
  ∃ usr gw tick resources data,
    w_flag_Parse w = None
    ∧ w_gatewayName w ≠ "" ∧ w_gatewayNs w ≠ ""
    ∧ w_user_Current w = inr usr
    ∧ w_BuildConfigFromFlags w ""
        (w_filepath_Join w [HomeDir usr; ".kube"; "config"]) = None
    ∧ w_kubernetes_NewForConfig w (config_of w usr) = None
    ∧ w_gatewayclient_NewForConfig w (config_of w usr) = None
    ∧ w_Gateways_Get w (GatewayClientFor (config_of w usr))
        (w_gatewayNs w) (w_gatewayName w) = inr gw
    ∧ first_synced w [Services; Gateways; HTTPRoutes] = Some tick
    ∧ w_TranslateGatewayToXDS w (translator_of w usr) tick gw = inr resources
    ∧ w_NewSnapshot w (w_time_Now w) resources = None
    ∧ (let s := {| snap_version := w_time_Now w;
                   snap_resources := resources |} in
       w_Consistent w s = None ∧ w_MarshalIndent w s = inr data)
    ∧ w_WriteFile w (w_outputFile w) data perm_0644 = None
    ∧ WriteFile (w_outputFile w) data perm_0644 ∈ trace (main w).
Proof.
  unfold translator_of, config_of. split.
  - run_main; intros Hret; simplify_eq.
    all: match goal with
         | H : bool_decide _ = false |- _ => apply bool_decide_eq_false in H
         end.
    all: eexists _, _, _, _, _.
    all: do 4 (split; [close_fact|]).
    all: match goal with
         | H : w_kubernetes_NewForConfig _ _ = _ |- _ => rewrite H
         end.
    all: do 7 (split; [close_fact|]).
    all: split; [split; close_fact|].
    all: split; close_fact.
  - intros (usr & gw & tick & resources & data & Hparse & Hname & Hns & Husr
            & Hconfig & Hkube & Hgwc & Hget & Hsync & Htr & Hsnap
            & [Hcons Hjson] & Hwrite & _).
    revert Htr. rewrite Hkube. unfold_main. rewrite Hparse. simpl.
    rewrite bool_decide_eq_false_2 by tauto.
    rewrite Husr. simpl. rewrite Hconfig. simpl. rewrite Hkube. simpl.
    rewrite Hgwc; simpl; rewrite Hget; simpl.
    simpl in Hsync; rewrite Hsync; simpl.
    intros Htr; rewrite Htr; simpl; rewrite Hsnap; simpl.
    rewrite Hcons; simpl; rewrite Hjson; simpl; by rewrite Hwrite.
Qed.


(** X10: only [--gateway] has to be given: the run stops at the flag check,
    having done nothing but print the complaint, exactly when the command
    line leaves [--gateway] out or sets it or [--namespace] to the empty
    string; leaving [--namespace] or [--output] out is accepted. *)
Theorem gateway_flag_is_required (set : gmap string string) (w : World) :
  main (with_flags set w)
  = ([Println "Error: --gateway and --namespace are required"], Exit 1)
  ↔ set !! "gateway" = None ∨ set !! "gateway" = Some ""
    ∨ set !! "namespace" = Some "".
Proof.
  assert (bool_decide (w_gatewayName (with_flags set w) = ""
                       ∨ w_gatewayNs (with_flags set w) = "") = true
          ↔ set !! "gateway" = None ∨ set !! "gateway" = Some ""
            ∨ set !! "namespace" = Some "") as <-.
  { rewrite bool_decide_eq_true. simpl. unfold flag_value. simpl.
    destruct (set !! "gateway") as [g|], (set !! "namespace") as [n|]; simpl.
    all: naive_solver. }
  run_main; split; try done.
Qed.

(** X11: without [--namespace] the Gateway is fetched from namespace
    [default], and without [--output] the only file written is
    [envoy-xds.json]. *)
Theorem omitted_flags_take_their_defaults (set : gmap string string) (w : World) :
  (set !! "namespace" = None →
   ∀ c ns name, GetGateway c ns name ∈ trace (main (with_flags set w)) →
                ns = "default" ∧ set !! "gateway" = Some name)
  ∧ (set !! "output" = None →
     ∀ path data perm, WriteFile path data perm ∈ trace (main (with_flags set w)) →
                       path = "envoy-xds.json").
Proof.
  split.
  - intros Hns c ns name.
    assert (w_gatewayNs (with_flags set w) = "default") as Hdefault.
    { simpl. unfold flag_value. simpl. by rewrite Hns. }
    assert (w_gatewayName (with_flags set w) ≠ "" →
            set !! "gateway" = Some (w_gatewayName (with_flags set w))) as Hname.
    { simpl. unfold flag_value. simpl. by destruct (set !! "gateway"). }
    revert Hdefault Hname. generalize (with_flags set w). clear w. intros w.
    run_main; intros Hdefault Hname Hin; in_trace Hin.
    all: split; [done|]; apply Hname.
    all: match goal with
         | H : bool_decide _ = false |- _ => apply bool_decide_eq_false in H
         end; tauto.
  - intros Hout path data perm.
    assert (w_outputFile (with_flags set w) = "envoy-xds.json") as Hdefault.
    { simpl. unfold flag_value. simpl. by rewrite Hout. }
    revert Hdefault. generalize (with_flags set w). clear w. intros w.
    run_main; intros Hdefault Hin; in_trace Hin; done.
Qed.

End Completion.

(** * The further properties at concrete inputs *)

Import CommandLine.

(** The user lookup fails. *)
Lemma exit_is_of_flag_parse_or_status_one_after_a_report_witness :
  let w := world [AtUser] all_synced in
  (w_flag_Parse w = Some 1 ∧ trace (main w) = [])
  ∨ (w_flag_Parse w = None ∧ (1 : Z) = 1
     ∧ ∃ e, last (trace (main w)) = Some e ∧ is_report e = true).
Proof.
  intros w. apply (exit_is_of_flag_parse_or_status_one_after_a_report w 1).
  vm_compute. reflexivity.
Defined.

(** Everything succeeds: the stop channel is closed. *)
Lemma stop_channel_closed_iff_main_returns_witness :
  let w := world [] all_synced in
  CloseStopCh ∈ trace (main w) ∧ last (trace (main w)) = Some CloseStopCh.
Proof.
  intros w.
  assert (result (main w) = Val tt) as Hret by (vm_compute; reflexivity).
  split.
  - exact (proj2 (proj1 (stop_channel_closed_iff_main_returns w)) Hret).
  - exact (proj2 (stop_channel_closed_iff_main_returns w) Hret).
Defined.

(** Only the write fails. *)
Lemma write_failure_is_reported_witness :
  let w := world [AtWriteFile] all_synced in
  result (main w) = Exit 1
  ∧ last (trace (main w))
    = Some (Printf ("Error writing to output file %s: %v" +:+ LF)
              [w_outputFile w; "boom"])
  ∧ (CloseStopCh ∉ trace (main w))
  ∧ (∀ args, Printf ("Successfully wrote XDS to %s" +:+ LF) args
             ∉ trace (main w)).
Proof.
  intros w.
  apply (write_failure_is_reported w "envoy-xds.json" "{}" perm_0644 "boom").
  - apply (list_elem_of_lookup_2 _ 9). vm_compute. reflexivity.
  - vm_compute. reflexivity.
Defined.

(** The fetch of the demo run. *)
Lemma gateway_fetched_through_home_kubeconfig_witness :
  let w := world [] all_synced in
  ∃ usr, w_user_Current w = inr usr
         ∧ w_BuildConfigFromFlags w ""
             (w_filepath_Join w [HomeDir usr; ".kube"; "config"]) = None
         ∧ GatewayClientFor demo_config = GatewayClientFor (config_of w usr)
         ∧ "ns1" = w_gatewayNs w ∧ "g1" = w_gatewayName w.
Proof.
  intros w.
  apply (gateway_fetched_through_home_kubeconfig w
           (GatewayClientFor demo_config) "ns1" "g1").
  apply (list_elem_of_lookup_2 _ 0). vm_compute. reflexivity.
Defined.

(** The translator call of the demo run. *)
Lemma translator_called_on_fetched_gateway_witness :
  let w := world [] all_synced in
  let t := {| t_kubeClient := Some (KubeClientFor demo_config);
              t_gatewayClient := GatewayClientFor demo_config;
              t_listers := [Namespaces; Services; Secrets;
                            Gateways; HTTPRoutes; ReferenceGrants] |} in
  ∃ usr,
    w_user_Current w = inr usr
    ∧ t = translator_of w usr
    ∧ w_Gateways_Get w (t_gatewayClient t) (w_gatewayNs w) (w_gatewayName w)
      = inr g1
    ∧ first_synced w [Services; Gateways; HTTPRoutes] = Some 0%nat.
Proof.
  intros w t.
  apply (translator_called_on_fetched_gateway w t 0 g1).
  apply (list_elem_of_lookup_2 _ 5). vm_compute. reflexivity.
Defined.

(** Everything succeeds: the output was written. *)
Lemma main_returns_iff_every_step_succeeded_witness :
  let w := world [] all_synced in
  ∃ data, WriteFile (w_outputFile w) data perm_0644 ∈ trace (main w).
Proof.
  intros w.
  assert (result (main w) = Val tt) as Hret by (vm_compute; reflexivity).
  destruct (proj1 (main_returns_iff_every_step_succeeded w) Hret)
    as (usr & gw & tick & resources & data & Hfacts).
  exists data. apply Hfacts.
Defined.


(** An empty command line. *)
Lemma gateway_flag_is_required_witness :
  main (with_flags ∅ (world [] all_synced))
  = ([Println "Error: --gateway and --namespace are required"], Exit 1).
Proof.
  apply (proj2 (gateway_flag_is_required ∅ (world [] all_synced))).
  left. vm_compute. reflexivity.
Defined.

(** Only [--gateway g1] on the command line. *)
Lemma omitted_flags_take_their_defaults_witness :
  let w := with_flags {[ "gateway" := "g1" ]} (world [] all_synced) in
  GetGateway (GatewayClientFor demo_config) "default" "g1" ∈ trace (main w)
  ∧ "default" = "default"
  ∧ ({[ "gateway" := "g1" ]} : gmap string string) !! "gateway" = Some "g1".
Proof.
  intros w.
  assert (GetGateway (GatewayClientFor demo_config) "default" "g1"
          ∈ trace (main w)) as Hin.
  { apply (list_elem_of_lookup_2 _ 0). vm_compute. reflexivity. }
  split; [exact Hin|].
  refine (proj1 (omitted_flags_take_their_defaults
                   {[ "gateway" := "g1" ]} (world [] all_synced)) _ _ _ _ Hin).
  vm_compute. reflexivity.
Defined.

(** The core informer factory of the demo run. *)
Lemma informers_start_after_gateway_fetched_witness :
  let w := world [] all_synced in
  ∃ usr gw,
    w_user_Current w = inr usr
    ∧ w_Gateways_Get w (GatewayClientFor (config_of w usr))
        (w_gatewayNs w) (w_gatewayName w) = inr gw
    ∧ (CoreInformers (Some (KubeClientFor demo_config))
       = GatewayInformers (GatewayClientFor (config_of w usr))
       ∨ CoreInformers (Some (KubeClientFor demo_config))
         = CoreInformers (t_kubeClient (translator_of w usr))).
Proof.
  intros w.
  apply (informers_start_after_gateway_fetched w
           (CoreInformers (Some (KubeClientFor demo_config)))).
  apply (list_elem_of_lookup_2 _ 3). vm_compute. reflexivity.
Defined.
